(** * SQLChain: a shallow embedding of [src/chain.py]

    The development follows the layout of the Python module: exceptions,
    [ParallelConfig], [ExecutionStats], the iterator protocol the streams
    are built on, [BaseStream], [Stream] and [ParallelStream].

    Conventions.
    - Python [int] is [Z]; [float] fields are only stored, never computed
      with, and are carried as [Q].
    - A call that may raise returns [res]; the message and the [__cause__]
      of the wrapping exceptions are not modelled, only their class.
    - Caller-supplied functions are pure but may raise: [A -> res B].
    - [StopIteration] is an exception like any other wherever the code
      catches [Exception] (around the chunk results, in [_execute], in
      the retry helper).  Raised by the function of a lazy [map] or
      [filter] it leaves [next()] and ends the iteration for [list] and
      [sorted]; it does not leave a coroutine, where Python raises
      [RuntimeError] in its place.
    - Every builder passes [source=self.source] and [stats=self.stats] on,
      so all pipeline values of one chain alias the same two objects.  The
      [World] holds these two objects; a pipeline value holds what is its
      own: the transform list, the configuration and the result cache.
    - Worker threads and processes run pure functions; their scheduling
      is invisible to the results, which are picked up in submission
      order.  Timeouts (real time) are not modelled: workers are taken to
      answer in time.  What [reduce_async] hands to its process pool is
      taken to cross the process boundary, and what a worker raises,
      whatever its class, to come back when its result is picked up.  A
      [StopIteration] raised in a worker of [reduce_async] is thus taken
      to reach [gather] as an exception, which [except Exception] then
      handles; a CPython whose asyncio refuses to store a [StopIteration]
      in a future leaves [reduce_async] waiting instead, and such a run
      is outside the embedding, like a timeout. *)

From Stdlib Require Import String.
From Stdlib Require Import List ZArith Lia Bool QArith Permutation Sorted.
Import ListNotations.
Open Scope Z_scope.

(** ** Exceptions *)

Inductive exn : Type :=
| UserError (tag : string)   (* any other exception of caller-supplied code *)
| StopIteration
| RuntimeError (msg : string)
| ValueError (msg : string)
| TypeError (msg : string)
| StreamError
| ParallelExecutionError
| SQLExecutionError.

Inductive res (A : Type) : Type :=
| Ok (a : A)
| Raise (e : exn).
Arguments Ok {A} a.
Arguments Raise {A} e.

Definition bind {A B} (r : res A) (k : A -> res B) : res B :=
  match r with
  | Ok a => k a
  | Raise e => Raise e
  end.

Notation "x <- r ;; k" := (bind r (fun x => k))
  (at level 61, r at next level, right associativity).

(** [[g(x) for x in l]]: left to right, the first exception aborts. *)
Fixpoint map_res {A B} (g : A -> res B) (l : list A) : res (list B) :=
  match l with
  | [] => Ok []
  | x :: l' => y <- g x ;; ys <- map_res g l' ;; Ok (y :: ys)
  end.

(** [[x for x in l if p(x)]]. *)
Fixpoint filter_res {A} (p : A -> res bool) (l : list A) : res (list A) :=
  match l with
  | [] => Ok []
  | x :: l' =>
      b <- p x ;; ys <- filter_res p l' ;; Ok (if b then x :: ys else ys)
  end.

Definition len {A} (l : list A) : Z := Z.of_nat (List.length l).

(** ** Configuration and statistics *)

Record ParallelConfig : Type := {
  chunk_size : Z;
  num_workers : Z;
  timeout : option Q;
  retry_count : Z;
  retry_delay : Q
}.

Record ExecutionStats : Type := {
  processed_items : Z;
  failed_items : Z;
  execution_time : Q;
  error_count : Z
}.

(** [ExecutionStats()] *)
Definition new_stats : ExecutionStats :=
  {| processed_items := 0; failed_items := 0;
     execution_time := 0%Q; error_count := 0 |}.

(** ** Built-ins: [range] and slicing *)

Fixpoint range_up (fuel : nat) (i stop step : Z) : list Z :=
  match fuel with
  | O => []
  | S fuel' =>
      if i <? stop then i :: range_up fuel' (i + step) stop step else []
  end.

Fixpoint range_down (fuel : nat) (i stop step : Z) : list Z :=
  match fuel with
  | O => []
  | S fuel' =>
      if stop <? i then i :: range_down fuel' (i + step) stop step else []
  end.

(** [list(range(start, stop, step))]; a zero step is a [ValueError]. *)
Definition py_range (start stop step : Z) : res (list Z) :=
  if step =? 0 then Raise (ValueError "range() arg 3 must not be zero")
  else if 0 <? step
       then Ok (range_up (Z.to_nat (stop - start)) start stop step)
       else Ok (range_down (Z.to_nat (start - stop)) start stop step).

(** Slice bounds: a negative bound counts from the end, and both bounds
    are clamped to the list. *)
Definition clamp_index (n k : Z) : Z :=
  if k <? 0 then Z.max 0 (k + n) else Z.min k n.

(** [l[i:j]] *)
Definition py_slice {A} (l : list A) (i j : Z) : list A :=
  let a := clamp_index (len l) i in
  let b := clamp_index (len l) j in
  firstn (Z.to_nat (b - a)) (skipn (Z.to_nat a) l).

(** ** [ParallelStream._chunk_data]

    The generator is only ever consumed by [list(...)], so it is modelled
    by the list it produces. *)
Definition _chunk_data {A} (config : ParallelConfig) (data : list A)
  : res (list (list A)) :=
  idx <- py_range 0 (len data) (chunk_size config) ;;
  Ok (map (fun i => py_slice data i (i + chunk_size config)) idx).

(** Shape of a chunk list: every chunk but the last has exactly [c]
    elements, the last one between 1 and [c]. *)
Fixpoint chunk_shape {A} (c : Z) (chunks : list (list A)) : Prop :=
  match chunks with
  | [] => True
  | [last] => 1 <= len last <= c
  | ch :: rest => len ch = c /\ chunk_shape c rest
  end.

(** ** The iterator protocol

    An iterator is described by what successive calls of [next()] do.
    Each constructor below is one call: [Yield] hands out an element,
    [Stop] is [StopIteration], [Throw] is any other exception.  The
    [Delta] of a call records the side effects that happen during it:
    how many elements the call pulls from the shared source iterator and
    what it adds to the shared statistics.  Every consumer in the module
    ([list], [sorted]) stops pulling at the first exception, so the
    description ends there. *)

Record Delta : Type := {
  d_pulled : nat;       (* elements taken from the source iterator *)
  d_processed : nat;    (* [stats.processed_items += ...] *)
  d_errors : nat        (* [stats.error_count += 1] *)
}.

Definition d0 : Delta := {| d_pulled := 0; d_processed := 0; d_errors := 0 |}.

Definition dplus (a b : Delta) : Delta :=
  {| d_pulled := d_pulled a + d_pulled b;
     d_processed := d_processed a + d_processed b;
     d_errors := d_errors a + d_errors b |}.

Definition pulled (n : nat) : Delta :=
  {| d_pulled := n; d_processed := 0; d_errors := 0 |}.
Definition processed (n : nat) : Delta :=
  {| d_pulled := 0; d_processed := n; d_errors := 0 |}.
Definition errors (n : nat) : Delta :=
  {| d_pulled := 0; d_processed := 0; d_errors := n |}.

Inductive Iter (A : Type) : Type :=
| Stop (d : Delta)
| Throw (d : Delta) (e : exn)
| Yield (d : Delta) (a : A) (rest : Iter A).
Arguments Stop {A} d.
Arguments Throw {A} d e.
Arguments Yield {A} d a rest.

(** The effects [d] happen first, within the next call of [next()]. *)
Definition after {A} (d : Delta) (it : Iter A) : Iter A :=
  match it with
  | Stop d' => Stop (dplus d d')
  | Throw d' e => Throw (dplus d d') e
  | Yield d' a rest => Yield (dplus d d') a rest
  end.

(** Hands out the elements of [l], each at the cost [d], then goes on
    as [fin]. *)
Fixpoint iter_list {A} (d : Delta) (l : list A) (fin : Iter A) : Iter A :=
  match l with
  | [] => fin
  | x :: l' => Yield d x (iter_list d l' fin)
  end.

(** [list(it)]: the elements up to [StopIteration], or the exception
    that interrupts the loop, with the effects of all the calls made. *)
Fixpoint py_list {A} (it : Iter A) : res (list A) * Delta :=
  match it with
  | Stop d => (Ok [], d)
  | Throw d e => (Raise e, d)
  | Yield d a rest =>
      let (r, d') := py_list rest in
      (l <- r ;; Ok (a :: l), dplus d d')
  end.

(** [map(func, it)]: lazy, one element per call.  A [StopIteration]
    that [func] raises leaves [next()] like the end of the iteration,
    and the consumer takes it for that. *)
Fixpoint py_map {A B} (func : A -> res B) (it : Iter A) : Iter B :=
  match it with
  | Stop d => Stop d
  | Throw d e => Throw d e
  | Yield d a rest =>
      match func a with
      | Ok b => Yield d b (py_map func rest)
      | Raise StopIteration => Stop d
      | Raise e => Throw d e
      end
  end.

(** [filter(predicate, it)]: lazy; a call keeps pulling until an element
    passes.  A [StopIteration] from the predicate ends the iteration for
    the consumer, as in [map]. *)
Fixpoint py_filter {A} (predicate : A -> res bool) (it : Iter A) : Iter A :=
  match it with
  | Stop d => Stop d
  | Throw d e => Throw d e
  | Yield d a rest =>
      match predicate a with
      | Ok true => Yield d a (py_filter predicate rest)
      | Ok false => after d (py_filter predicate rest)
      | Raise StopIteration => Stop d
      | Raise e => Throw d e
      end
  end.

(** ** Sources and the shared objects of a chain *)

(** What a stream is bound to: a list, which every [iter()] walks from
    the start, or an iterator (a generator, for [SQLChain.query]), which
    is used up as it is read and may end by raising.  The [failure] of
    an iterator is an exception other than [StopIteration], which is
    how an iterator says that it has run out. *)
Inductive Source (S : Type) : Type :=
| Reiterable (items : list S)
| OneShot (rest : list S) (failure : option exn).
Arguments Reiterable {S} items.
Arguments OneShot {S} rest failure.

Definition iter_source {S} (src : Source S) : Iter S :=
  match src with
  | Reiterable items => iter_list (pulled 1) items (Stop d0)
  | OneShot rest None => iter_list (pulled 1) rest (Stop d0)
  | OneShot rest (Some StopIteration) => iter_list (pulled 1) rest (Stop d0)
  | OneShot rest (Some e) => iter_list (pulled 1) rest (Throw (pulled 1) e)
  end.

(** The source after [n] pulls.  A generator that has raised is
    finished. *)
Definition advance {S} (n : nat) (src : Source S) : Source S :=
  match src with
  | Reiterable items => Reiterable items
  | OneShot rest failure =>
      if (n <=? List.length rest)%nat then OneShot (skipn n rest) failure
      else OneShot [] None
  end.

Record World (S : Type) : Type := {
  source : Source S;
  stats : ExecutionStats
}.
Arguments source {S} w.
Arguments stats {S} w.

Definition bump (d : Delta) (st : ExecutionStats) : ExecutionStats :=
  {| processed_items := processed_items st + Z.of_nat (d_processed d);
     failed_items := failed_items st;
     execution_time := execution_time st;
     error_count := error_count st + Z.of_nat (d_errors d) |}.

Definition commit {S} (d : Delta) (w : World S) : World S :=
  {| source := advance (d_pulled d) (source w);
     stats := bump d (stats w) |}.

(** ** Transform lists

    A transform is a Python callable from iterator to iterator.  Calling
    it may already do work and fail ([group_by] sorts on the spot), or
    only wrap the iterator ([map], [filter], the parallel
    generators).  The list of a stream of [T] over a source of [S] is
    kept with the element types of its stages. *)

Definition Transform (A B : Type) : Type := Iter A -> res (Iter B) * Delta.

Inductive Transforms (S : Type) : Type -> Type :=
| TNil : Transforms S S
| TSnoc {A B : Type} (ts : Transforms S A) (t : Transform A B)
  : Transforms S B.
Arguments TNil {S}.
Arguments TSnoc {S A B} ts t.

(** The loop of [_execute]: [for transform in self.transforms:
    result = transform(result)]. *)
Fixpoint apply_transforms {S T} (ts : Transforms S T) (result : Iter S)
  : res (Iter T) * Delta :=
  match ts in Transforms _ T0 return res (Iter T0) * Delta with
  | TNil => (Ok result, d0)
  | TSnoc ts' transform =>
      match apply_transforms ts' result with
      | (Ok it, d) => let (r, d') := transform it in (r, dplus d d')
      | (Raise e, d) => (Raise e, d)
      end
  end.

(** ** Sorting and grouping ([sorted], [itertools.groupby]) *)

(** The comparisons Python makes on keys: [<] when sorting, [==] when
    grouping. *)
Class PyOrd (K : Type) : Type := {
  py_lt : K -> K -> bool;
  py_eq : K -> K -> bool
}.

(** A key type that is totally ordered, with [==] deciding equality. *)
Class TotalOrd (K : Type) `{PyOrd K} : Prop := {
  py_eq_spec : forall a b, py_eq a b = true <-> a = b;
  py_lt_irrefl : forall a, py_lt a a = false;
  py_lt_trans : forall a b c,
      py_lt a b = true -> py_lt b c = true -> py_lt a c = true;
  py_lt_total : forall a b, py_lt a b = false -> py_lt b a = false -> a = b
}.

#[export] Instance PyOrd_Z : PyOrd Z := {| py_lt := Z.ltb; py_eq := Z.eqb |}.

Section Grouping.
Context {A K : Type} `{PyOrd K}.

(** [a] is not above [b] in key order. *)
Definition key_le (a b : K * A) : Prop := py_lt (fst b) (fst a) = false.

(** The items whose key is [k]. *)
Definition with_key (k : K) (l : list (K * A)) : list (K * A) :=
  filter (fun y => py_eq (fst y) k) l.

(** [sorted(items, key=key)] first computes the key of every item. *)
Definition decorate (key : A -> res K) (items : list A)
  : res (list (K * A)) :=
  map_res (fun x => k <- key x ;; Ok (k, x)) items.

(** [list.sort] is stable and compares with [<] only.  It is modelled
    as the insertion sort CPython runs on short lists: each item goes
    behind the items it is not smaller than. *)
Fixpoint insort (x : K * A) (l : list (K * A)) : list (K * A) :=
  match l with
  | [] => [x]
  | y :: l' =>
      if py_lt (fst x) (fst y) then x :: y :: l' else y :: insort x l'
  end.

Definition sort_decorated (l : list (K * A)) : list (K * A) :=
  fold_left (fun acc x => insort x acc) l [].

(** [itertools.groupby]: a group runs while the key of the current
    item equals the key the group started with.  [group] holds the
    open group in reverse. *)
Fixpoint groupby_from (tgtkey : K) (group : list A) (l : list (K * A))
  : list (K * list A) :=
  match l with
  | [] => [(tgtkey, rev group)]
  | (currkey, x) :: l' =>
      if py_eq currkey tgtkey then groupby_from tgtkey (x :: group) l'
      else (tgtkey, rev group) :: groupby_from currkey [x] l'
  end.

(** [[(k, list(g)) for k, g in groupby(sorted_items, key=key)]].  The
    keys are those [sorted] computed: [key] is pure. *)
Definition groupby (l : list (K * A)) : list (K * list A) :=
  match l with
  | [] => []
  | (k, x) :: l' => groupby_from k [x] l'
  end.

(** The [transform] closure of [Stream.group_by].  It is a plain
    function, so [sorted] reads the whole upstream when the transform
    is applied; the groups are then handed out lazily. *)
Definition group_by_transform (key : A -> res K)
  : Transform A (K * list A) :=
  fun items =>
    let (r, d) := py_list items in
    (data <- r ;;
     decorated <- decorate key data ;;
     let sorted_items := sort_decorated decorated in
     Ok (iter_list d0 (groupby sorted_items) (Stop d0)), d).
End Grouping.

(** ** [BaseStream] *)

Module BaseStream.

Record t (S T : Type) : Type := {
  transforms : Transforms S T;
  _cached_results : option (list T)
}.
Arguments transforms {S T} _.
Arguments _cached_results {S T} _.

(** [_execute]: chains the transforms over [self.source]; an
    exception while chaining is wrapped in [StreamError]. *)
Definition _execute {S T} (self : t S T) (w : World S)
  : res (Iter T) * Delta :=
  match apply_transforms (transforms self) (iter_source (source w)) with
  | (Ok result, d) => (Ok result, d)
  | (Raise e, d) => (Raise StreamError, d)
  end.

(** [list(self._execute())], as the terminal calls run it. *)
Definition list_execute {S T} (self : t S T) (w : World S)
  : res (list T) * World S :=
  match _execute self w with
  | (Raise e, d) => (Raise e, commit d w)
  | (Ok it, d) => let (r, d') := py_list it in (r, commit (dplus d d') w)
  end.

(** [collect_async]: runs the chain once and keeps the list on the
    object. *)
Definition collect_async {S T} (self : t S T) (w : World S)
  : res (list T) * t S T * World S :=
  match _cached_results self with
  | Some cached => (Ok cached, self, w)
  | None =>
      match list_execute self w with
      | (Ok l, w') =>
          (Ok l,
           {| transforms := transforms self; _cached_results := Some l |},
           w')
      | (Raise e, w') => (Raise e, self, w')
      end
  end.

End BaseStream.

(** ** [functools.reduce] *)

Fixpoint reduce_from {A} (func : A -> A -> res A) (acc : A) (l : list A)
  : res A :=
  match l with
  | [] => Ok acc
  | x :: l' => acc' <- func acc x ;; reduce_from func acc' l'
  end.

Definition functools_reduce {A} (func : A -> A -> res A) (l : list A)
  (initial : option A) : res A :=
  match initial, l with
  | Some seed, _ => reduce_from func seed l
  | None, x :: l' => reduce_from func x l'
  | None, [] =>
      Raise (TypeError "reduce() of empty iterable with no initial value")
  end.

(** An exception that leaves the body of a coroutine: a
    [StopIteration] cannot, Python turns it into a [RuntimeError]. *)
Definition out_of_coroutine (e : exn) : exn :=
  match e with
  | StopIteration => RuntimeError "coroutine raised StopIteration"
  | _ => e
  end.

(** ** [ParallelStream]

    (Placed before [Stream], whose [parallel] builds one.) *)

Module ParallelStream.

Record t (S T : Type) : Type := {
  base : BaseStream.t S T;
  config : ParallelConfig
}.
Arguments base {S T} _.
Arguments config {S T} _.

Definition _parallel_map_wrapper {A B} (args : (A -> res B) * list A)
  : res (list B) :=
  let (func, chunk) := args in map_res func chunk.

Definition _parallel_filter_wrapper {A} (args : (A -> res bool) * list A)
  : res (list A) :=
  let (predicate, chunk) := args in filter_res predicate chunk.

Definition _parallel_reduce_wrapper {A} (args : (A -> A -> res A) * list A)
  : res A :=
  let (func, chunk) := args in functools_reduce func chunk None.

(** The loop of [_retry_operation].  [operation n args] is what the
    call of the operation returns after [n] earlier calls (an
    operation worth retrying is not pure).  The result is the value
    returned ([None] when the function falls off its loop, as Python
    then returns [None]) or the exception raised, with the number of
    calls made and the delays slept, latest first. *)
Fixpoint retry_loop {Args A} (fuel : nat)
  (operation : nat -> Args -> res A) (args : Args)
  (retry_count : Z) (retry_delay : Q) (calls : nat) (slept : list Q)
  : option (res (option A) * nat * list Q) :=
  match fuel with
  | O => None
  | S fuel' =>
      if 0 <? retry_count then
        match operation calls args with
        | Ok v => Some (Ok (Some v), S calls, slept)
        | Raise e =>
            let retry_count := retry_count - 1 in
            if 0 <? retry_count then
              retry_loop fuel' operation args retry_count retry_delay
                (S calls) (retry_delay :: slept)
            else Some (Raise (out_of_coroutine e), S calls, slept)
        end
      else Some (Ok None, calls, slept)
  end.

Definition _retry_operation {Args A} (operation : nat -> Args -> res A)
  (args : Args) (retry_count : Z) (retry_delay : Q)
  : option (res (option A) * nat * list Q) :=
  retry_loop (S (Z.to_nat retry_count)) operation args
    retry_count retry_delay 0%nat [].

(** [executor.map(fn, args)] and [gather] over [run_in_executor]:
    one result per argument, in the order of the arguments. *)
Definition executor_map {X Y} (fn : X -> res Y) (args : list X)
  : list (res Y) :=
  List.map fn args.

(** [yield from chunk_result]; [pending] are the effects since the
    last [yield]. *)
Fixpoint yield_from {B} (pending : Delta) (chunk_result : list B)
  (k : Delta -> Iter B) : Iter B :=
  match chunk_result with
  | [] => k pending
  | x :: r => Yield pending x (yield_from d0 r k)
  end.

(** The loop over [chunk_results] inside [try]: a chunk that failed
    raises when its turn comes. *)
Fixpoint yield_chunks {B} (pending : Delta)
  (chunk_results : list (res (list B))) : Iter B :=
  match chunk_results with
  | [] => Stop pending
  | Raise e :: _ => Throw (dplus pending (errors 1)) ParallelExecutionError
  | Ok chunk_result :: rest =>
      yield_from pending chunk_result
        (fun d =>
           yield_chunks (dplus d (processed (List.length chunk_result)))
             rest)
  end.

(** The generator [transform] of [map] and [filter]; nothing of it
    runs before the first [next()]. *)
Definition chunked {A B X} (config : ParallelConfig)
  (wrapper : X * list A -> res (list B)) (func : X) (it : Iter A)
  : Iter B :=
  let (r, d) := py_list it in
  match r with
  | Raise e => Throw d e
  | Ok data =>
      match _chunk_data config data with
      | Raise e => Throw d e
      | Ok chunks =>
          let chunk_args := List.map (fun chunk => (func, chunk)) chunks in
          if num_workers config <=? 0
          then Throw d (ValueError "max_workers must be greater than 0")
          else yield_chunks d (executor_map wrapper chunk_args)
      end
  end.

Definition map {S T R} (self : t S T) (func : T -> res R) : t S R :=
  let transform : Transform T R :=
    fun it => (Ok (chunked (config self) _parallel_map_wrapper func it), d0)
  in
  {| base :=
       {| BaseStream.transforms :=
            TSnoc (BaseStream.transforms (base self)) transform;
          BaseStream._cached_results := None |};
     config := config self |}.

Definition filter {S T} (self : t S T) (predicate : T -> res bool)
  : t S T :=
  let transform : Transform T T :=
    fun it =>
      (Ok (chunked (config self) _parallel_filter_wrapper predicate it), d0)
  in
  {| base :=
       {| BaseStream.transforms :=
            TSnoc (BaseStream.transforms (base self)) transform;
          BaseStream._cached_results := None |};
     config := config self |}.

Definition set_processed {S} (n : Z) (w : World S) : World S :=
  {| source := source w;
     stats :=
       {| processed_items := n;
          failed_items := failed_items (stats w);
          execution_time := execution_time (stats w);
          error_count := error_count (stats w) |} |}.

(** The [except] clause of [reduce_async]. *)
Definition reduce_failed {S A} (w : World S) : res A * World S :=
  (Raise ParallelExecutionError,
   {| source := source w; stats := bump (errors 1) (stats w) |}).

Definition reduce_async {S T} (self : t S T) (func : T -> T -> res T)
  (initial : option T) (w : World S) : res T * World S :=
  match BaseStream.list_execute (base self) w with
  | (Raise e, w1) => (Raise e, w1)
  | (Ok data, w1) =>
      match data with
      | [] => (Raise (ValueError "Cannot reduce empty sequence"), w1)
      | _ :: _ =>
          match _chunk_data (config self) data with
          | Raise e => (Raise e, w1)
          | Ok chunks =>
              let chunk_args :=
                List.map (fun chunk => (func, chunk)) chunks in
              if num_workers (config self) <=? 0
              then (Raise
                      (ValueError "max_workers must be greater than 0"),
                    w1)
              else
                let tasks :=
                  executor_map _parallel_reduce_wrapper chunk_args in
                match map_res (fun task => task) tasks with
                | Raise e => reduce_failed w1
                | Ok chunk_results =>
                    let w2 := set_processed (len data) w1 in
                    match functools_reduce func chunk_results initial with
                    | Ok v => (Ok v, w2)
                    | Raise e => reduce_failed w2
                    end
                end
          end
      end
  end.

End ParallelStream.

(** ** [Stream] *)

Module Stream.

Definition t : Type -> Type -> Type := BaseStream.t.

(** [Stream(source=...)]: no transform yet, nothing cached. *)
Definition new {S} : t S S :=
  {| BaseStream.transforms := TNil; BaseStream._cached_results := None |}.

Definition map {S T R} (self : t S T) (func : T -> res R) : t S R :=
  {| BaseStream.transforms :=
       TSnoc (BaseStream.transforms self)
         (fun it => (Ok (py_map func it), d0));
     BaseStream._cached_results := None |}.

Definition filter {S T} (self : t S T) (predicate : T -> res bool)
  : t S T :=
  {| BaseStream.transforms :=
       TSnoc (BaseStream.transforms self)
         (fun it => (Ok (py_filter predicate it), d0));
     BaseStream._cached_results := None |}.

Definition group_by {S T K} `{PyOrd K} (self : t S T) (key : T -> res K)
  : t S (K * list T) :=
  {| BaseStream.transforms :=
       TSnoc (BaseStream.transforms self) (group_by_transform key);
     BaseStream._cached_results := None |}.

(** [x or default]: [None] and [0] are falsy. *)
Definition py_or (x : option Z) (default : Z) : Z :=
  match x with
  | Some v => if v =? 0 then default else v
  | None => default
  end.

(** [parallel] has no [raise]; its result is in [res] so that a
    rejection at build time can be told from a stream being built. *)
Definition parallel {S T} (self : t S T) (num_workers chunk_size : option Z)
  (timeout : option Q) : res (ParallelStream.t S T) :=
  let config :=
    {| chunk_size := py_or chunk_size 1000;
       num_workers := py_or num_workers 1;
       timeout := timeout;
       retry_count := 3;
       retry_delay := 1%Q |} in
  Ok {| ParallelStream.base :=
          {| BaseStream.transforms := BaseStream.transforms self;
             BaseStream._cached_results := None |};
        ParallelStream.config := config |}.

Definition collect {S T} (self : t S T) (w : World S)
  : res (list T) * World S :=
  BaseStream.list_execute self w.

(** The streams that never leave sequential mode: what [Stream]'s own
    builders make of a fresh stream, and what [collect_async] leaves
    of such a stream. *)
Inductive sequential {S : Type} : forall {T : Type}, t S T -> Prop :=
| seq_new : sequential new
| seq_map {T R} (s : t S T) (func : T -> res R) :
    sequential s -> sequential (map s func)
| seq_filter {T} (s : t S T) (predicate : T -> res bool) :
    sequential s -> sequential (filter s predicate)
| seq_group_by {T K} `{PyOrd K} (s : t S T) (key : T -> res K) :
    sequential s -> sequential (group_by s key)
| seq_collected {T} (s : t S T) (w : World S) :
    sequential s -> sequential (snd (fst (BaseStream.collect_async s w))).

End Stream.

(** ** [SQLChain.query]

    The database is an external collaborator: [rows] is what it answers.
    The stream is bound to a generator, which raises
    [SQLExecutionError] at the first pull when the query fails. *)
Definition query {Row} (rows : res (list Row)) : Stream.t Row Row * World Row :=
  (Stream.new,
   {| source :=
        match rows with
        | Ok l => OneShot l None
        | Raise _ => OneShot [] (Some SQLExecutionError)
        end;
      stats := new_stats |}).

(** ** The rows [SQLChain.query] hands out

    A row is a dictionary from column names to values, in column
    order.  Of a [datetime], a [date] and a [Decimal] only what [str]
    makes of them matters here, so they are carried as that text. *)

Inductive cell : Type :=
| CNone
| CBool (b : bool)
| CInt (z : Z)
| CFloat (q : Q)
| CStr (s : string)
| CDatetime (text : string)
| CDate (text : string)
| CDecimal (text : string).

(** [isinstance(value, (datetime, date, decimal.Decimal))] *)
Definition needs_str (value : cell) : bool :=
  match value with
  | CDatetime _ | CDate _ | CDecimal _ => true
  | _ => false
  end.

(** [str(value)], for the values the test above selects. *)
Definition str_of (value : cell) : cell :=
  match value with
  | CDatetime text | CDate text | CDecimal text => CStr text
  | other => other
  end.

(** The loop over [row_dict.items()]: assigning to a key that is
    already there keeps its place. *)
Definition row_dict (row : list (string * cell)) : list (string * cell) :=
  List.map (fun item => if needs_str (snd item)
                        then (fst item, str_of (snd item)) else item) row.

(** The generator [result_generator]: the rows of the answer, one
    dictionary each, or [SQLExecutionError] at the first pull when
    anything fails inside the [try]. *)
Definition result_generator (answer : res (list (list (string * cell))))
  : Source (list (string * cell)) :=
  match answer with
  | Ok rows => OneShot (List.map row_dict rows) None
  | Raise _ => OneShot [] (Some SQLExecutionError)
  end.

(** [SQLChain.query], down to the rows: [Stream(source=result_generator())]. *)
Definition query_rows (answer : res (list (list (string * cell))))
  : Stream.t (list (string * cell)) (list (string * cell))
    * World (list (string * cell)) :=
  (Stream.new, {| source := result_generator answer; stats := new_stats |}).

(** ** Predicates used in the statements *)

(** No effect on the statistics. *)
Definition quiet_delta (d : Delta) : Prop :=
  d_processed d = 0%nat /\ d_errors d = 0%nat.

(** An iterator none of whose calls touches the statistics. *)
Fixpoint quiet {A} (it : Iter A) : Prop :=
  match it with
  | Stop d => quiet_delta d
  | Throw d _ => quiet_delta d
  | Yield d _ rest => quiet_delta d /\ quiet rest
  end.

(** No counter of [a] is above its value in [b]. *)
Definition stats_le (a b : ExecutionStats) : Prop :=
  processed_items a <= processed_items b /\
  failed_items a <= failed_items b /\
  (execution_time a <= execution_time b)%Q /\
  error_count a <= error_count b.

(** [list(map(func, data))] over a list: the values up to the first
    element on which [func] raises; a [StopIteration] ends the list
    there, any other exception is raised. *)
Fixpoint list_map {A B} (func : A -> res B) (data : list A) : res (list B) :=
  match data with
  | [] => Ok []
  | x :: data' =>
      match func x with
      | Ok y => ys <- list_map func data' ;; Ok (y :: ys)
      | Raise StopIteration => Ok []
      | Raise e => Raise e
      end
  end.

(** [list(filter(predicate, data))] over a list, likewise. *)
Fixpoint list_filter {A} (predicate : A -> res bool) (data : list A)
  : res (list A) :=
  match data with
  | [] => Ok []
  | x :: data' =>
      match predicate x with
      | Ok b =>
          ys <- list_filter predicate data' ;; Ok (if b then x :: ys else ys)
      | Raise StopIteration => Ok []
      | Raise e => Raise e
      end
  end.

(** The sequential streams none of whose [map] functions and [filter]
    predicates raises [StopIteration]. *)
Inductive runs_through {S : Type} : forall {T : Type}, Stream.t S T -> Prop :=
| through_new : runs_through Stream.new
| through_map {T R} (s : Stream.t S T) (func : T -> res R) :
    (forall x, func x <> Raise StopIteration) ->
    runs_through s -> runs_through (Stream.map s func)
| through_filter {T} (s : Stream.t S T) (predicate : T -> res bool) :
    (forall x, predicate x <> Raise StopIteration) ->
    runs_through s -> runs_through (Stream.filter s predicate)
| through_group_by {T K} `{PyOrd K} (s : Stream.t S T) (key : T -> res K) :
    runs_through s -> runs_through (Stream.group_by s key)
| through_collected {T} (s : Stream.t S T) (w : World S) :
    runs_through s ->
    runs_through (snd (fst (BaseStream.collect_async s w))).

(** The sequential streams made of lazy stages only: [map] and
    [filter], no [group_by]. *)
Inductive lazy_chain {S : Type} : forall {T : Type}, Stream.t S T -> Prop :=
| lazy_new : lazy_chain Stream.new
| lazy_map {T R} (s : Stream.t S T) (func : T -> res R) :
    lazy_chain s -> lazy_chain (Stream.map s func)
| lazy_filter {T} (s : Stream.t S T) (predicate : T -> res bool) :
    lazy_chain s -> lazy_chain (Stream.filter s predicate)
| lazy_collected {T} (s : Stream.t S T) (w : World S) :
    lazy_chain s ->
    lazy_chain (snd (fst (BaseStream.collect_async s w))).

(** The sequential streams with a [group_by] stage somewhere. *)
Inductive grouping_chain {S : Type}
  : forall {T : Type}, Stream.t S T -> Prop :=
| grouping_first {T K} `{PyOrd K} (s : Stream.t S T) (key : T -> res K) :
    lazy_chain s -> grouping_chain (Stream.group_by s key)
| grouping_again {T K} `{PyOrd K} (s : Stream.t S T) (key : T -> res K) :
    grouping_chain s -> grouping_chain (Stream.group_by s key)
| grouping_map {T R} (s : Stream.t S T) (func : T -> res R) :
    grouping_chain s -> grouping_chain (Stream.map s func)
| grouping_filter {T} (s : Stream.t S T) (predicate : T -> res bool) :
    grouping_chain s -> grouping_chain (Stream.filter s predicate)
| grouping_collected {T} (s : Stream.t S T) (w : World S) :
    grouping_chain s ->
    grouping_chain (snd (fst (BaseStream.collect_async s w))).

(** What the loop over the chunk results of a parallel stage adds to
    the statistics when it is run to its end: the sizes of the results
    handed out, and one error if a chunk failed. *)
Fixpoint tally {B} (chunk_results : list (res (list B))) : Delta :=
  match chunk_results with
  | [] => d0
  | Raise _ :: _ => errors 1
  | Ok chunk_result :: rest =>
      dplus (processed (List.length chunk_result)) (tally rest)
  end.

(** ** Sample values for concrete runs *)

Definition sample_config (c n : Z) : ParallelConfig :=
  {| chunk_size := c; num_workers := n; timeout := None;
     retry_count := 3; retry_delay := 1%Q |}.

Definition sample_rows : list Z := [1; 2; 3; 4; 5; 6].

(** The world [SQLChain.query] sets up when the database answers
    [sample_rows]. *)
Definition sample_world : World Z := snd (query (Ok sample_rows)).

Definition square (x : Z) : res Z := Ok (x * x).
Definition add (a b : Z) : res Z := Ok (a + b).
Definition below (bound x : Z) : res bool := Ok (x <? bound).

(** A caller-supplied function that raises on [bad]. *)
Definition fails_at (bad x : Z) : res Z :=
  if x =? bad then Raise (UserError "boom") else Ok x.

(** A caller-supplied function that raises [StopIteration] on [bad]. *)
Definition stop_at (bad x : Z) : res Z :=
  if x =? bad then Raise StopIteration else Ok (x * x).

(** An operation that fails on its first [n] calls. *)
Definition flaky (n : nat) (calls : nat) (_ : unit) : res nat :=
  if (calls <? n)%nat then Raise (UserError "transient") else Ok calls.

(** One row as a database hands it over. *)
Definition sample_answer : list (list (string * cell)) :=
  [[("id"%string, CInt 1);
    ("seen"%string, CDatetime "2024-11-06 10:00:00");
    ("price"%string, CDecimal "9.90");
    ("link"%string, CNone)]].

(** What [Stream(source).parallel(num_workers=3, chunk_size=2)]
    returns. *)
Definition sample_parallel : ParallelStream.t Z Z :=
  {| ParallelStream.base := Stream.new;
     ParallelStream.config := sample_config 2 3 |}.

(** The world of a query that returns no row. *)
Definition empty_world : World Z := snd (query (Ok [])).

(** * Properties *)

(** ** Chunking *)

Lemma len_nonneg {A} (l : list A) : 0 <= len l.
Proof. unfold len. lia. Qed.

Lemma len_skipn {A} (n : nat) (l : list A) :
  len (skipn n l) = Z.max 0 (len l - Z.of_nat n).
Proof. unfold len. rewrite length_skipn. lia. Qed.

(** Within the list, [l[i:i+c]] is the first [c] elements from [i] on. *)
Lemma py_slice_window {A} (l : list A) (i c : Z) :
  0 <= i <= len l -> 0 <= c ->
  py_slice l i (i + c) = firstn (Z.to_nat c) (skipn (Z.to_nat i) l).
Proof.
  intros Hi Hc. unfold py_slice, clamp_index.
  destruct (Z.ltb_spec i 0) as [|_]; [lia|].
  destruct (Z.ltb_spec (i + c) 0) as [|_]; [lia|].
  rewrite (Z.min_l i) by lia.
  destruct (Z.le_ge_cases (i + c) (len l)) as [Hle | Hge].
  - rewrite Z.min_l by lia. f_equal. lia.
  - rewrite Z.min_r by lia.
    assert (Hlen : List.length (skipn (Z.to_nat i) l) = Z.to_nat (len l - i)).
    { rewrite length_skipn. unfold len. lia. }
    rewrite !firstn_all2; [reflexivity | lia | lia].
Qed.

Lemma range_up_nonempty fuel i stop step :
  i < stop -> (0 < fuel)%nat -> range_up fuel i stop step <> [].
Proof.
  intros Hi Hf. destruct fuel as [|fuel]; [lia|]. simpl.
  destruct (Z.ltb_spec i stop); [discriminate | lia].
Qed.

Lemma chunk_shape_cons {A} (c : Z) (ch : list A) (rest : list (list A)) :
  rest <> [] -> len ch = c -> chunk_shape c rest -> chunk_shape c (ch :: rest).
Proof.
  intros Hne Hlen Hrest. destruct rest as [|r rs]; [congruence|].
  split; assumption.
Qed.

(** The chunks cut from index [i] on rebuild the list from [i] on. *)
Lemma chunks_from {A} (data : list A) (c : Z) :
  1 <= c ->
  forall fuel i,
    0 <= i <= len data -> len data - i <= Z.of_nat fuel ->
    concat (map (fun j => py_slice data j (j + c))
              (range_up fuel i (len data) c))
    = skipn (Z.to_nat i) data /\
    chunk_shape c (map (fun j => py_slice data j (j + c))
                     (range_up fuel i (len data) c)).
Proof.
  intros Hc fuel. induction fuel as [|fuel IH]; intros i Hi Hfuel; simpl.
  - assert (i = len data) by lia. subst i. split; [|exact I].
    unfold len. rewrite Nat2Z.id, skipn_all. reflexivity.
  - destruct (Z.ltb_spec i (len data)) as [Hlt | Hge].
    + cbn [map concat]. rewrite py_slice_window by lia.
      destruct (Z.le_gt_cases (len data) (i + c)) as [Hlast | Hmore].
      * (* the last chunk *)
        assert (Hnil : range_up fuel (i + c) (len data) c = []).
        { destruct fuel; simpl; [reflexivity|].
          destruct (Z.ltb_spec (i + c) (len data)); [lia | reflexivity]. }
        rewrite Hnil. simpl. rewrite app_nil_r.
        assert (Hlen : List.length (skipn (Z.to_nat i) data)
                       = Z.to_nat (len data - i)).
        { rewrite length_skipn. unfold len. lia. }
        rewrite firstn_all2 by lia. split; [reflexivity|].
        unfold len at 1 2. rewrite Hlen. lia.
      * (* a full chunk, and more to come *)
        destruct (IH (i + c)) as [Hcat Hshape]; [lia | lia |].
        simpl in Hcat, Hshape. split.
        -- simpl. rewrite Hcat.
           replace (Z.to_nat (i + c)) with (Z.to_nat c + Z.to_nat i)%nat by lia.
           rewrite <- skipn_skipn. apply firstn_skipn.
        -- apply chunk_shape_cons.
           ++ intros Hmap. apply map_eq_nil in Hmap.
              revert Hmap. apply range_up_nonempty; lia.
           ++ unfold len. rewrite length_firstn, length_skipn.
              unfold len in *. lia.
           ++ exact Hshape.
    + assert (i = len data) by lia. subst i. split; [|exact I].
      simpl. unfold len. rewrite Nat2Z.id, skipn_all. reflexivity.
Qed.

Lemma chunk_data_ok {A} (config : ParallelConfig) (data : list A) :
  1 <= chunk_size config ->
  exists chunks,
    _chunk_data config data = Ok chunks /\
    concat chunks = data /\
    chunk_shape (chunk_size config) chunks.
Proof.
  intros Hc. unfold _chunk_data, py_range.
  destruct (Z.eqb_spec (chunk_size config) 0) as [|_]; [lia|].
  destruct (Z.ltb_spec 0 (chunk_size config)) as [_|]; [|lia].
  simpl. eexists. split; [reflexivity|].
  pose proof (len_nonneg data).
  apply (@chunks_from A data (chunk_size config) Hc (Z.to_nat (len data - 0)) 0); lia.
Qed.

(** C5.  For every list and every chunk size of at least 1,
    [_chunk_data] succeeds and cuts the list into consecutive chunks:
    every chunk but the last has exactly [chunk_size] elements, the last
    has between 1 and [chunk_size], and the chunks put end to end are the
    list itself, so that no element is lost, repeated or moved. *)
Theorem chunk_data_partition :
  forall (A : Type) (config : ParallelConfig) (data : list A),
    1 <= chunk_size config ->
    exists chunks,
      _chunk_data config data = Ok chunks /\
      concat chunks = data /\
      chunk_shape (chunk_size config) chunks.
Proof. intros A config data Hc. apply chunk_data_ok. exact Hc. Qed.

Lemma chunk_data_partition_witness :
  1 <= chunk_size (sample_config 2 1) /\
  exists chunks,
    _chunk_data (sample_config 2 1) [10; 20; 30; 40; 50] = Ok chunks /\
    concat chunks = [10; 20; 30; 40; 50] /\
    chunk_shape (chunk_size (sample_config 2 1)) chunks.
Proof.
  split; [simpl; lia|].
  apply (chunk_data_partition Z (sample_config 2 1) [10; 20; 30; 40; 50]).
  simpl. lia.
Defined.

(** ** Draining iterators *)

Lemma bind_ok {A B} (r : res A) (k : A -> res B) (b : B) :
  bind r k = Ok b <-> exists a, r = Ok a /\ k a = Ok b.
Proof.
  destruct r as [a | e]; simpl; split.
  - intros Hk. exists a. split; [reflexivity | exact Hk].
  - intros [a' [Ha Hk]]. injection Ha as ->. exact Hk.
  - discriminate.
  - intros [a' [Ha _]]. discriminate.
Qed.

Lemma py_list_cons {A} (d : Delta) (a : A) (rest : Iter A) :
  fst (py_list (Yield d a rest)) = (l <- fst (py_list rest) ;; Ok (a :: l)).
Proof. simpl. destruct (py_list rest) as [r d']. reflexivity. Qed.

Lemma py_list_after {A} (d : Delta) (it : Iter A) :
  fst (py_list (after d it)) = fst (py_list it).
Proof.
  destruct it as [d' | d' e | d' a rest]; simpl; try reflexivity.
  destruct (py_list rest). reflexivity.
Qed.

Lemma py_list_iter_list {A} (d : Delta) (l : list A) (fin : Iter A) :
  fst (py_list (iter_list d l fin))
  = (tl <- fst (py_list fin) ;; Ok (l ++ tl)).
Proof.
  induction l as [|x l IH]; simpl iter_list.
  - destruct (fst (py_list fin)); reflexivity.
  - rewrite py_list_cons, IH. destruct (fst (py_list fin)); reflexivity.
Qed.

(** Over an upstream that drains to [data], a lazily mapped iterator
    drains to [list(map(func, data))]. *)
Lemma py_list_py_map_list {A B} (func : A -> res B) (it : Iter A)
  (data : list A) :
  fst (py_list it) = Ok data ->
  fst (py_list (py_map func it)) = list_map func data.
Proof.
  revert data. induction it as [d | d e | d a rest IH]; intros data Hd.
  - simpl in Hd. injection Hd as <-. reflexivity.
  - discriminate.
  - rewrite py_list_cons in Hd. apply bind_ok in Hd.
    destruct Hd as [data' [Hd' Hcons]]. injection Hcons as <-.
    simpl py_map. simpl list_map. destruct (func a) as [b | e].
    + rewrite py_list_cons, (IH data' Hd'). reflexivity.
    + destruct e; reflexivity.
Qed.

Lemma list_map_ok {A B} (func : A -> res B) (data : list A) (l : list B) :
  map_res func data = Ok l -> list_map func data = Ok l.
Proof.
  revert l. induction data as [|x data IH]; intros l Hl; simpl in *;
    [exact Hl|].
  destruct (func x) as [y | e]; [|discriminate]. simpl in Hl.
  destruct (map_res func data) as [ys | e]; [|discriminate].
  rewrite (IH ys eq_refl). exact Hl.
Qed.

(** A function that never raises [StopIteration] is applied to the
    whole list. *)
Lemma list_map_through {A B} (func : A -> res B) (data : list A) :
  (forall x, func x <> Raise StopIteration) ->
  list_map func data = map_res func data.
Proof.
  intros Hthrough. induction data as [|x data IH]; simpl; [reflexivity|].
  pose proof (Hthrough x) as Hx. destruct (func x) as [y | e]; simpl.
  - rewrite IH. reflexivity.
  - destruct e; try reflexivity. congruence.
Qed.

(** Under such a function a mapped iterator that drains has drained
    the iterator under it. *)
Lemma py_map_drains {A B} (func : A -> res B) (it : Iter A) (l : list B) :
  (forall x, func x <> Raise StopIteration) ->
  fst (py_list (py_map func it)) = Ok l ->
  exists data, fst (py_list it) = Ok data.
Proof.
  intros Hthrough. revert l.
  induction it as [d | d e | d a rest IH]; intros l Hl.
  - exists []. reflexivity.
  - discriminate.
  - simpl in Hl. pose proof (Hthrough a) as Ha.
    destruct (func a) as [b | e].
    + rewrite py_list_cons in Hl. apply bind_ok in Hl.
      destruct Hl as [l' [Hl' _]]. destruct (IH l' Hl') as [data Hdata].
      exists (a :: data). rewrite py_list_cons, Hdata. reflexivity.
    + destruct e; try discriminate. congruence.
Qed.

Lemma map_res_app {A B} (g : A -> res B) (l1 l2 : list A) :
  map_res g (l1 ++ l2)
  = (r1 <- map_res g l1 ;; r2 <- map_res g l2 ;; Ok (r1 ++ r2)).
Proof.
  induction l1 as [|x l1 IH]; simpl.
  - destruct (map_res g l2); reflexivity.
  - destruct (g x) as [y | e]; simpl; [|reflexivity]. rewrite IH.
    destruct (map_res g l1); simpl; [|reflexivity].
    destruct (map_res g l2); reflexivity.
Qed.

(** Mapping chunk by chunk and joining is mapping the joined list. *)
Lemma map_res_concat {A B} (g : A -> res B) (chunks : list (list A)) :
  map_res g (concat chunks)
  = (rs <- map_res (map_res g) chunks ;; Ok (concat rs)).
Proof.
  induction chunks as [|c chunks IH]; simpl; [reflexivity|].
  rewrite map_res_app, IH. destruct (map_res g c); simpl; [|reflexivity].
  destruct (map_res (map_res g) chunks); reflexivity.
Qed.

Lemma map_res_total {A B} (g : A -> B) (l : list A) :
  map_res (fun x => Ok (g x)) l = Ok (List.map g l).
Proof. induction l as [|x l IH]; simpl; [|rewrite IH]; reflexivity. Qed.

Lemma map_res_ext {A B} (f g : A -> res B) (l : list A) :
  (forall x, f x = g x) -> map_res f l = map_res g l.
Proof.
  intros Hfg. induction l as [|x l IH]; simpl; [reflexivity|].
  rewrite Hfg, IH. reflexivity.
Qed.

Lemma map_res_map {A B C} (h : A -> B) (g : B -> res C) (l : list A) :
  map_res g (List.map h l) = map_res (fun x => g (h x)) l.
Proof. induction l as [|x l IH]; simpl; [|rewrite IH]; reflexivity. Qed.

(** ** The parallel generator *)

Lemma py_list_yield_from {B} (r : list B) (k : Delta -> Iter B) :
  (forall d1 d2, fst (py_list (k d1)) = fst (py_list (k d2))) ->
  forall d,
    fst (py_list (ParallelStream.yield_from d r k))
    = (tl <- fst (py_list (k d0)) ;; Ok (r ++ tl)).
Proof.
  intros Hk. induction r as [|x r IH]; intros d; simpl ParallelStream.yield_from.
  - rewrite (Hk d d0). destruct (fst (py_list (k d0))); reflexivity.
  - rewrite py_list_cons, IH. destruct (fst (py_list (k d0))); reflexivity.
Qed.

(** What the loop over the chunk results hands out does not depend on
    the pending effects: the results joined in order, or the parallel
    execution error as soon as one chunk failed. *)
Lemma py_list_yield_chunks {B} (chunk_results : list (res (list B))) :
  forall d,
    fst (py_list (ParallelStream.yield_chunks d chunk_results))
    = match map_res (fun r => r) chunk_results with
      | Ok rs => Ok (concat rs)
      | Raise _ => Raise ParallelExecutionError
      end.
Proof.
  induction chunk_results as [|r rest IH]; intros d; [reflexivity|].
  destruct r as [chunk_result | e]; [|reflexivity].
  simpl ParallelStream.yield_chunks. rewrite py_list_yield_from.
  - rewrite IH. simpl.
    destruct (map_res (fun r => r) rest); reflexivity.
  - intros d1 d2. rewrite !IH. reflexivity.
Qed.

Lemma chunked_result {A B X} (config : ParallelConfig)
  (wrapper : X * list A -> res (list B)) (func : X) (it : Iter A) :
  1 <= chunk_size config -> 1 <= num_workers config ->
  fst (py_list (ParallelStream.chunked config wrapper func it))
  = match fst (py_list it) with
    | Raise e => Raise e
    | Ok data =>
        match
          chunks <- _chunk_data config data ;;
          map_res (fun chunk => wrapper (func, chunk)) chunks
        with
        | Ok rs => Ok (concat rs)
        | Raise _ => Raise ParallelExecutionError
        end
    end.
Proof.
  intros Hc Hn. unfold ParallelStream.chunked.
  destruct (py_list it) as [[data | e] d]; [|reflexivity]. simpl fst.
  destruct (chunk_data_ok config data Hc) as [chunks [Hchunks _]].
  rewrite Hchunks. simpl bind.
  destruct (Z.leb_spec (num_workers config) 0) as [|_]; [lia|].
  rewrite py_list_yield_chunks. unfold ParallelStream.executor_map.
  rewrite !map_res_map. reflexivity.
Qed.

(** A parallel [map] stage drains to what [func] makes of the whole
    upstream list. *)
Lemma chunked_map_result {A B} (config : ParallelConfig)
  (func : A -> res B) (it : Iter A) :
  1 <= chunk_size config -> 1 <= num_workers config ->
  fst (py_list
         (ParallelStream.chunked config
            ParallelStream._parallel_map_wrapper func it))
  = match fst (py_list it) with
    | Raise e => Raise e
    | Ok data =>
        match map_res func data with
        | Ok l => Ok l
        | Raise _ => Raise ParallelExecutionError
        end
    end.
Proof.
  intros Hc Hn. rewrite chunked_result by assumption.
  destruct (fst (py_list it)) as [data | e]; [|reflexivity].
  destruct (chunk_data_ok config data Hc) as [chunks [Hchunks [Hcat _]]].
  rewrite Hchunks. simpl bind. rewrite <- Hcat.
  rewrite map_res_concat. unfold ParallelStream._parallel_map_wrapper.
  destruct (map_res (map_res func) chunks); reflexivity.
Qed.

(** ** Terminal calls *)

Lemma list_execute_snoc_lazy {S A B} (ts : Transforms S A)
  (wrap : Iter A -> Iter B) (cached : option (list B)) (w : World S) :
  fst (BaseStream.list_execute
         {| BaseStream.transforms := TSnoc ts (fun it => (Ok (wrap it), d0));
            BaseStream._cached_results := cached |} w)
  = match fst (apply_transforms ts (iter_source (source w))) with
    | Ok it => fst (py_list (wrap it))
    | Raise _ => Raise StreamError
    end.
Proof.
  unfold BaseStream.list_execute, BaseStream._execute. simpl.
  destruct (apply_transforms ts (iter_source (source w))) as [[it | e] d];
    simpl; [|reflexivity].
  destruct (py_list (wrap it)). reflexivity.
Qed.

Lemma list_execute_result {S T} (self : BaseStream.t S T) (w : World S) :
  fst (BaseStream.list_execute self w)
  = match fst (apply_transforms (BaseStream.transforms self)
                 (iter_source (source w))) with
    | Ok it => fst (py_list it)
    | Raise _ => Raise StreamError
    end.
Proof.
  unfold BaseStream.list_execute, BaseStream._execute.
  destruct (apply_transforms _ _) as [[it | e] d]; simpl; [|reflexivity].
  destruct (py_list it). reflexivity.
Qed.

Lemma collect_async_fresh {S T} (self : BaseStream.t S T) (w : World S) :
  BaseStream._cached_results self = None ->
  fst (fst (BaseStream.collect_async self w))
  = fst (BaseStream.list_execute self w).
Proof.
  intros Hnone. unfold BaseStream.collect_async. rewrite Hnone.
  destruct (BaseStream.list_execute self w) as [[l | e] w']; reflexivity.
Qed.

(** C4.  For every function [func] without side effects, every
    pipeline [s] feeding it, every chunk size and worker count of at
    least 1: switching to parallel mode succeeds, and when [func]
    returns a value on every element of what [s] materialises to, the
    parallel [map] followed by [collect_async] and the sequential [map]
    followed by [collect] return the same list, in the same order:
    [func] applied to the input element by element (chunk results are
    joined in chunk order).  Whenever the parallel call returns a list,
    the sequential call returns that list; the converse holds for every
    function that does not raise [StopIteration], which alone ends a
    sequential [map] early instead of failing it. *)
Theorem parallel_map_matches_sequential :
  forall (S T R : Type) (s : Stream.t S T) (func : T -> res R)
         (w : World S) (n c : Z) (tmo : option Q),
    1 <= c -> 1 <= n ->
    exists ps,
      Stream.parallel s (Some n) (Some c) tmo = Ok ps /\
      (forall (data : list T) (l : list R),
          fst (Stream.collect s w) = Ok data ->
          map_res func data = Ok l ->
          fst (Stream.collect (Stream.map s func) w) = Ok l /\
          fst (fst (BaseStream.collect_async
                      (ParallelStream.base (ParallelStream.map ps func)) w))
          = Ok l) /\
      (forall l,
          fst (fst (BaseStream.collect_async
                      (ParallelStream.base (ParallelStream.map ps func)) w))
          = Ok l ->
          fst (Stream.collect (Stream.map s func) w) = Ok l) /\
      (forall l,
          (forall x, func x <> Raise StopIteration) ->
          (fst (Stream.collect (Stream.map s func) w) = Ok l <->
           fst (fst (BaseStream.collect_async
                       (ParallelStream.base (ParallelStream.map ps func)) w))
           = Ok l)) /\
      (forall (g : T -> R) (data : list T),
          (forall x, func x = Ok (g x)) ->
          fst (Stream.collect s w) = Ok data ->
          fst (Stream.collect (Stream.map s func) w) = Ok (List.map g data) /\
          fst (fst (BaseStream.collect_async
                      (ParallelStream.base (ParallelStream.map ps func)) w))
          = Ok (List.map g data)).
Proof.
  intros S T R s func w n c tmo Hc Hn.
  eexists. split; [reflexivity|].
  assert (Hcs : Stream.py_or (Some c) 1000 = c).
  { simpl. destruct (Z.eqb_spec c 0); [lia | reflexivity]. }
  assert (Hnw : Stream.py_or (Some n) 1 = n).
  { simpl. destruct (Z.eqb_spec n 0); [lia | reflexivity]. }
  assert (Hpar :
    forall it : Iter T,
      fst (py_list
             (ParallelStream.chunked
                {| chunk_size := Stream.py_or (Some c) 1000;
                   num_workers := Stream.py_or (Some n) 1;
                   timeout := tmo; retry_count := 3; retry_delay := 1%Q |}
                ParallelStream._parallel_map_wrapper func it))
      = match fst (py_list it) with
        | Raise e => Raise e
        | Ok data =>
            match map_res func data with
            | Ok l => Ok l
            | Raise _ => Raise ParallelExecutionError
            end
        end).
  { intros it. apply chunked_map_result; cbn [chunk_size num_workers];
      [rewrite Hcs | rewrite Hnw]; assumption. }
  rewrite collect_async_fresh by reflexivity.
  unfold Stream.collect, Stream.map, ParallelStream.map.
  cbn [ParallelStream.base ParallelStream.config BaseStream.transforms].
  rewrite !list_execute_snoc_lazy, list_execute_result.
  destruct (fst (apply_transforms (BaseStream.transforms s)
                   (iter_source (source w)))) as [it | e].
  - rewrite Hpar.
    assert (Hboth : forall data l,
               fst (py_list it) = Ok data -> map_res func data = Ok l ->
               fst (py_list (py_map func it)) = Ok l /\
               match fst (py_list it) with
               | Ok data0 =>
                   match map_res func data0 with
                   | Ok l0 => Ok l0
                   | Raise _ => Raise ParallelExecutionError
                   end
               | Raise e => Raise e
               end = Ok l).
    { intros data l Hd Hm. split.
      - rewrite (py_list_py_map_list func it data Hd).
        apply list_map_ok. exact Hm.
      - rewrite Hd, Hm. reflexivity. }
    assert (Hback : forall l,
               match fst (py_list it) with
               | Ok data0 =>
                   match map_res func data0 with
                   | Ok l0 => Ok l0
                   | Raise _ => Raise ParallelExecutionError
                   end
               | Raise e => Raise e
               end = Ok l ->
               fst (py_list (py_map func it)) = Ok l).
    { intros l Hl. destruct (fst (py_list it)) as [data | e] eqn:Hd;
        [|discriminate].
      destruct (map_res func data) as [l' | e] eqn:Hm; [|discriminate].
      injection Hl as <-. rewrite (py_list_py_map_list func it data Hd).
      apply list_map_ok. exact Hm. }
    split; [exact Hboth|]. split; [exact Hback|]. split.
    + intros l Hthrough. split; [|apply Hback].
      intros Hl. destruct (py_map_drains func it l Hthrough Hl) as [data Hd].
      rewrite (py_list_py_map_list func it data Hd) in Hl.
      rewrite (list_map_through func data Hthrough) in Hl.
      apply (Hboth data l Hd Hl).
    + intros g data Hg Hd. apply (Hboth data (List.map g data) Hd).
      rewrite (map_res_ext func (fun x => Ok (g x)) data Hg).
      apply map_res_total.
  - split; [intros data l Hd; discriminate|].
    split; [intros l Hl; discriminate|].
    split; [intros l _; split; discriminate|].
    intros g data _ Hd. discriminate.
Qed.

Lemma parallel_map_matches_sequential_witness :
  1 <= 2 /\ 1 <= 3 /\
  exists ps,
    Stream.parallel (@Stream.new Z) (Some 3) (Some 2) None = Ok ps /\
    fst (Stream.collect (Stream.map Stream.new square) sample_world)
    = Ok [1; 4; 9; 16; 25; 36] /\
    fst (fst (BaseStream.collect_async
                (ParallelStream.base (ParallelStream.map ps square))
                sample_world))
    = Ok [1; 4; 9; 16; 25; 36].
Proof.
  split; [lia|]. split; [lia|].
  destruct (parallel_map_matches_sequential Z Z Z Stream.new square
              sample_world 3 2 None) as [ps [Hps [Hsame _]]]; [lia | lia |].
  exists ps. split; [exact Hps|].
  apply (Hsame sample_rows [1; 4; 9; 16; 25; 36]); reflexivity.
Defined.

(** ** Reduction *)

Lemma reduce_from_total {A} (f : A -> A -> A) (l : list A) (acc : A) :
  reduce_from (fun a b => Ok (f a b)) acc l = Ok (fold_left f l acc).
Proof.
  revert acc. induction l as [|x l IH]; intros acc; simpl;
    [reflexivity | apply IH].
Qed.

Section AssociativeReduce.
Variable A : Type.
Variable f : A -> A -> A.
Hypothesis f_assoc : forall a b c, f (f a b) c = f a (f b c).

Lemma fold_left_assoc (l : list A) (a b : A) :
  fold_left f l (f a b) = f a (fold_left f l b).
Proof.
  revert b. induction l as [|x l IH]; intros b; simpl; [reflexivity|].
  rewrite f_assoc. apply IH.
Qed.

(** Reducing every chunk on its own and folding the results in chunk
    order is folding the joined list. *)
Lemma chunk_reductions (chunks : list (list A)) :
  Forall (fun chunk => chunk <> []) chunks ->
  exists rs,
    map_res (fun chunk =>
               ParallelStream._parallel_reduce_wrapper
                 (fun a b => Ok (f a b), chunk)) chunks = Ok rs /\
    forall seed, fold_left f rs seed = fold_left f (concat chunks) seed.
Proof.
  induction 1 as [|chunk chunks Hne _ IH].
  - exists []. split; reflexivity.
  - destruct IH as [rs [Hrs Hfold]].
    destruct chunk as [|x r]; [congruence|].
    exists (fold_left f r x :: rs). split.
    + cbn [map_res]. rewrite Hrs.
      unfold ParallelStream._parallel_reduce_wrapper. simpl.
      rewrite reduce_from_total. reflexivity.
    + intros seed. cbn [fold_left concat].
      rewrite fold_left_app, Hfold, <- fold_left_assoc. reflexivity.
Qed.

Lemma chunk_reductions_unseeded (x : A) (rest : list A)
  (chunks : list (list A)) :
  Forall (fun chunk => chunk <> []) chunks ->
  concat chunks = x :: rest ->
  exists rs,
    map_res (fun chunk =>
               ParallelStream._parallel_reduce_wrapper
                 (fun a b => Ok (f a b), chunk)) chunks = Ok rs /\
    functools_reduce (fun a b => Ok (f a b)) rs None
    = Ok (fold_left f rest x).
Proof.
  intros Hne Hcat. destruct Hne as [|chunk chunks Hchunk Hne];
    [discriminate|].
  destruct chunk as [|y r]; [congruence|].
  simpl in Hcat. injection Hcat as -> <-.
  destruct (chunk_reductions chunks Hne) as [rs [Hrs Hfold]].
  exists (fold_left f r x :: rs). split.
  - cbn [map_res]. rewrite Hrs.
    unfold ParallelStream._parallel_reduce_wrapper. simpl.
    rewrite reduce_from_total. reflexivity.
  - simpl. rewrite reduce_from_total, Hfold, fold_left_app. reflexivity.
Qed.
End AssociativeReduce.

Lemma chunk_shape_nonempty {A} (c : Z) (chunks : list (list A)) :
  1 <= c -> chunk_shape c chunks -> Forall (fun chunk => chunk <> []) chunks.
Proof.
  intros Hc. induction chunks as [|ch rest IH]; intros Hshape;
    constructor.
  - destruct rest as [|r rs]; simpl in Hshape;
      intros ->; unfold len in Hshape; simpl in Hshape; lia.
  - apply IH. destruct rest as [|r rs]; [exact I | apply Hshape].
Qed.

(** C9.  For every associative function [f] (commutativity is not
    needed), every parallel stream whose chunk size and worker count are
    at least 1 and whose input materialises to a non-empty list,
    [reduce_async] returns the sequential left fold of [f] over that
    list: seeded with [initial] when one is given, started from the
    first element otherwise.  The value does not depend on the chunk
    size or the worker count. *)
Theorem parallel_reduce_is_fold :
  forall (S T : Type) (ps : ParallelStream.t S T) (f : T -> T -> T)
         (initial : option T) (w w1 : World S) (x : T) (rest : list T),
    (forall a b c, f (f a b) c = f a (f b c)) ->
    1 <= chunk_size (ParallelStream.config ps) ->
    1 <= num_workers (ParallelStream.config ps) ->
    BaseStream.list_execute (ParallelStream.base ps) w = (Ok (x :: rest), w1) ->
    fst (ParallelStream.reduce_async ps (fun a b => Ok (f a b)) initial w)
    = Ok match initial with
         | Some seed => fold_left f (x :: rest) seed
         | None => fold_left f rest x
         end.
Proof.
  intros S T ps f initial w w1 x rest Hassoc Hc Hn Hdata.
  unfold ParallelStream.reduce_async. rewrite Hdata.
  destruct (chunk_data_ok (ParallelStream.config ps) (x :: rest) Hc)
    as [chunks [Hchunks [Hcat Hshape]]].
  rewrite Hchunks.
  destruct (Z.leb_spec (num_workers (ParallelStream.config ps)) 0) as [|_];
    [lia|].
  unfold ParallelStream.executor_map. rewrite !map_res_map.
  apply chunk_shape_nonempty in Hshape; [|exact Hc].
  destruct initial as [seed|].
  - destruct (chunk_reductions T f Hassoc chunks Hshape) as [rs [Hrs Hfold]].
    rewrite Hrs. simpl functools_reduce.
    rewrite reduce_from_total, Hfold, Hcat. reflexivity.
  - destruct (chunk_reductions_unseeded T f Hassoc x rest chunks Hshape Hcat)
      as [rs [Hrs Hred]].
    rewrite Hrs, Hred. reflexivity.
Qed.

Lemma parallel_reduce_is_fold_witness :
  fst (ParallelStream.reduce_async
         (ParallelStream.map sample_parallel square)
         (fun a b => Ok (a + b)) (Some 100) sample_world)
  = Ok (fold_left Z.add [1; 4; 9; 16; 25; 36] 100).
Proof.
  apply (parallel_reduce_is_fold Z Z
           (ParallelStream.map sample_parallel square) Z.add (Some 100)
           sample_world
           (snd (BaseStream.list_execute
                   (ParallelStream.base
                      (ParallelStream.map sample_parallel square))
                   sample_world))
           1 [4; 9; 16; 25; 36]).
  - intros a b c. symmetry. apply Z.add_assoc.
  - simpl. lia.
  - simpl. lia.
  - reflexivity.
Defined.

(** The seed is not returned for an empty input: the guard on the
    materialised list comes first. *)
Lemma reduce_empty_with_seed_raises :
  fst (ParallelStream.reduce_async sample_parallel add (Some 7) empty_world)
  = Raise (ValueError "Cannot reduce empty sequence") /\
  fst (ParallelStream.reduce_async sample_parallel add (Some 7) empty_world)
  <> Ok 7.
Proof. split; [reflexivity | discriminate]. Qed.

(** C2 (amended).  When the upstream of [reduce_async] materialises
    to the empty list, the call raises the [ValueError] "Cannot reduce
    empty sequence", whether or not an initial seed is supplied; the
    shared objects are left as the materialisation left them. *)
Theorem reduce_empty_raises :
  forall (S T : Type) (ps : ParallelStream.t S T) (func : T -> T -> res T)
         (initial : option T) (w w1 : World S),
    BaseStream.list_execute (ParallelStream.base ps) w = (Ok [], w1) ->
    ParallelStream.reduce_async ps func initial w
    = (Raise (ValueError "Cannot reduce empty sequence"), w1).
Proof.
  intros S T ps func initial w w1 Hdata.
  unfold ParallelStream.reduce_async. rewrite Hdata. reflexivity.
Qed.

Lemma reduce_empty_raises_witness :
  ParallelStream.reduce_async sample_parallel add None empty_world
  = (Raise (ValueError "Cannot reduce empty sequence"),
     {| source := OneShot [] None; stats := new_stats |}).
Proof.
  apply (reduce_empty_raises Z Z sample_parallel add None empty_world).
  reflexivity.
Defined.

(** ** Sequential pipelines and the statistics *)

Lemma quiet_dplus (a b : Delta) :
  quiet_delta a -> quiet_delta b -> quiet_delta (dplus a b).
Proof. unfold quiet_delta. simpl. lia. Qed.

Lemma quiet_d0 : quiet_delta d0.
Proof. split; reflexivity. Qed.

Lemma quiet_iter_list {A} (d : Delta) (l : list A) (fin : Iter A) :
  quiet_delta d -> quiet fin -> quiet (iter_list d l fin).
Proof.
  intros Hd Hfin. induction l as [|x l IH]; simpl; [exact Hfin|].
  split; assumption.
Qed.

Lemma quiet_source {S} (src : Source S) : quiet (iter_source src).
Proof.
  destruct src as [items | rest [e|]]; simpl; try destruct e;
    apply quiet_iter_list; simpl; repeat split.
Qed.

Lemma quiet_after {A} (d : Delta) (it : Iter A) :
  quiet_delta d -> quiet it -> quiet (after d it).
Proof.
  intros Hd. destruct it as [d' | d' e | d' a rest]; simpl.
  - apply quiet_dplus; assumption.
  - apply quiet_dplus; assumption.
  - intros [Hd' Hrest]. split; [apply quiet_dplus|]; assumption.
Qed.

Lemma quiet_py_map {A B} (func : A -> res B) (it : Iter A) :
  quiet it -> quiet (py_map func it).
Proof.
  induction it as [d | d e | d a rest IH]; simpl; try (intros H; exact H).
  intros [Hd Hrest]. destruct (func a) as [b | e]; simpl;
    [split; auto | destruct e; exact Hd].
Qed.

Lemma quiet_py_filter {A} (predicate : A -> res bool) (it : Iter A) :
  quiet it -> quiet (py_filter predicate it).
Proof.
  induction it as [d | d e | d a rest IH]; simpl; try (intros H; exact H).
  intros [Hd Hrest]. destruct (predicate a) as [[|] | e]; simpl.
  - split; auto.
  - apply quiet_after; auto.
  - destruct e; exact Hd.
Qed.

Lemma quiet_py_list {A} (it : Iter A) :
  quiet it -> quiet_delta (snd (py_list it)).
Proof.
  induction it as [d | d e | d a rest IH]; simpl; try (intros H; exact H).
  intros [Hd Hrest]. destruct (py_list rest) as [r d']. simpl in *.
  apply quiet_dplus; auto.
Qed.

Lemma quiet_group_by {A K} `{PyOrd K} (key : A -> res K) (items : Iter A) :
  quiet items ->
  quiet_delta (snd (group_by_transform key items)) /\
  forall it, fst (group_by_transform key items) = Ok it -> quiet it.
Proof.
  intros Hq. unfold group_by_transform.
  pose proof (quiet_py_list items Hq) as Hd.
  destruct (py_list items) as [r d]. simpl in *. split; [exact Hd|].
  intros it Hit. destruct r as [data | e]; [|discriminate]. simpl in Hit.
  destruct (decorate key data) as [decorated | e]; [|discriminate].
  simpl in Hit. injection Hit as <-.
  apply quiet_iter_list; [apply quiet_d0 | apply quiet_d0].
Qed.

Lemma collect_async_transforms {S T} (self : BaseStream.t S T) (w : World S) :
  BaseStream.transforms (snd (fst (BaseStream.collect_async self w)))
  = BaseStream.transforms self.
Proof.
  unfold BaseStream.collect_async.
  destruct (BaseStream._cached_results self); [reflexivity|].
  destruct (BaseStream.list_execute self w) as [[l | e] w']; reflexivity.
Qed.

(** Chaining the transforms of a sequential stream touches no counter,
    and neither does pulling from the iterator it returns. *)
Lemma sequential_quiet {S T} (s : Stream.t S T) :
  Stream.sequential s ->
  forall src : Iter S,
    quiet src ->
    quiet_delta (snd (apply_transforms (BaseStream.transforms s) src)) /\
    forall it,
      fst (apply_transforms (BaseStream.transforms s) src) = Ok it ->
      quiet it.
Proof.
  induction 1 as [ | T R s func _ IH | T s predicate _ IH
                   | T K ord s key _ IH | T s w _ IH ];
    intros src Hsrc.
  - simpl. split; [apply quiet_d0|]. intros it Hit. injection Hit as <-.
    exact Hsrc.
  - simpl. destruct (IH src Hsrc) as [Hd Hit].
    destruct (apply_transforms (BaseStream.transforms s) src)
      as [[it | e] d]; simpl in *.
    + split; [apply quiet_dplus; [exact Hd | apply quiet_d0]|].
      intros it' Heq. injection Heq as <-. apply quiet_py_map.
      apply Hit. reflexivity.
    + split; [exact Hd | discriminate].
  - simpl. destruct (IH src Hsrc) as [Hd Hit].
    destruct (apply_transforms (BaseStream.transforms s) src)
      as [[it | e] d]; simpl in *.
    + split; [apply quiet_dplus; [exact Hd | apply quiet_d0]|].
      intros it' Heq. injection Heq as <-. apply quiet_py_filter.
      apply Hit. reflexivity.
    + split; [exact Hd | discriminate].
  - simpl. destruct (IH src Hsrc) as [Hd Hit].
    destruct (apply_transforms (BaseStream.transforms s) src)
      as [[it | e] d]; simpl in *.
    + destruct (quiet_group_by key it (Hit it eq_refl)) as [Hd' Hit'].
      destruct (group_by_transform key it) as [r d']. simpl in *.
      split; [apply quiet_dplus; assumption | exact Hit'].
    + split; [exact Hd | discriminate].
  - rewrite collect_async_transforms. apply IH. exact Hsrc.
Qed.

Lemma bump_quiet (d : Delta) (st : ExecutionStats) :
  quiet_delta d -> bump d st = st.
Proof.
  intros [Hp He]. unfold bump. rewrite Hp, He. simpl.
  rewrite !Z.add_0_r. destruct st. reflexivity.
Qed.

(** C10.  For every stream that never left sequential mode and every
    state of the shared objects, [collect()] leaves the statistics as
    they were: [processed_items], [failed_items], [execution_time] and
    [error_count] keep their values, whether the call returns a list or
    raises. *)
Theorem sequential_collect_keeps_stats :
  forall (S T : Type) (s : Stream.t S T) (w : World S),
    Stream.sequential s ->
    stats (snd (Stream.collect s w)) = stats w.
Proof.
  intros S T s w Hseq.
  destruct (sequential_quiet s Hseq (iter_source (source w))
              (quiet_source (source w))) as [Hd Hit].
  unfold Stream.collect, BaseStream.list_execute, BaseStream._execute.
  destruct (apply_transforms (BaseStream.transforms s)
              (iter_source (source w))) as [[it | e] d]; simpl in *.
  - pose proof (quiet_py_list it (Hit it eq_refl)) as Hd'.
    destruct (py_list it) as [r d']. simpl in *.
    apply bump_quiet. apply quiet_dplus; assumption.
  - apply bump_quiet. exact Hd.
Qed.

Lemma sequential_collect_keeps_stats_witness :
  stats (snd (Stream.collect
                (Stream.map (Stream.filter Stream.new (below 5)) (fails_at 3))
                sample_world))
  = stats sample_world.
Proof.
  apply (sequential_collect_keeps_stats Z Z
           (Stream.map (Stream.filter Stream.new (below 5)) (fails_at 3))
           sample_world).
  apply Stream.seq_map. apply Stream.seq_filter. apply Stream.seq_new.
Defined.

(** ** Caching *)

(** [collect_async] does keep its result: a second call on the object
    the first one leaves returns the same list and changes nothing. *)
Lemma collect_async_idempotent {S T} (self self' : BaseStream.t S T)
  (w w' : World S) (l : list T) :
  BaseStream.collect_async self w = (Ok l, self', w') ->
  forall w'', BaseStream.collect_async self' w'' = (Ok l, self', w'').
Proof.
  unfold BaseStream.collect_async.
  destruct (BaseStream._cached_results self) as [cached|] eqn:Hc.
  - intros Heq w''. injection Heq as <- <- <-. rewrite Hc. reflexivity.
  - destruct (BaseStream.list_execute self w) as [[l' | e] w1];
      intros Heq w''; [|discriminate].
    injection Heq as <- <- <-. reflexivity.
Qed.

(** [Stream.collect] never writes the cache and runs the chain on every
    call. *)
Lemma collect_is_list_execute {S T} (self : Stream.t S T) (w : World S) :
  Stream.collect self w = BaseStream.list_execute self w.
Proof. reflexivity. Qed.

(** C1 (the code departs from the claim).  On the stream that [query]
    returns for six rows, followed by [map(square)], the first
    [collect()] returns the six squares and uses the source generator
    up; the second [collect()] runs the chain again over the exhausted
    generator and returns the empty list.  Nothing was cached. *)
Theorem collect_twice_differs :
  let s := Stream.map (fst (query (Ok sample_rows))) square in
  let first := Stream.collect s sample_world in
  let second := Stream.collect s (snd first) in
  fst first = Ok [1; 4; 9; 16; 25; 36] /\
  source (snd first) = OneShot [] None /\
  fst second = Ok [] /\
  BaseStream._cached_results s = None.
Proof. repeat split. Qed.

(** ** Statistics over a chain *)

Lemma stats_le_refl (st : ExecutionStats) : stats_le st st.
Proof. unfold stats_le. repeat split; try lia. apply Qle_refl. Qed.

Lemma stats_le_bump (d : Delta) (st : ExecutionStats) :
  stats_le st (bump d st).
Proof. unfold stats_le, bump. simpl. repeat split; try lia. apply Qle_refl. Qed.

(** Materialising any chain, with parallel stages or without, lowers no
    counter. *)
Lemma list_execute_stats_le {S T} (self : BaseStream.t S T) (w : World S) :
  stats_le (stats w) (stats (snd (BaseStream.list_execute self w))).
Proof.
  unfold BaseStream.list_execute.
  destruct (BaseStream._execute self w) as [[it | e] d].
  - destruct (py_list it) as [r d']. apply stats_le_bump.
  - apply stats_le_bump.
Qed.

Lemma collect_async_stats_le {S T} (self : BaseStream.t S T) (w : World S) :
  stats_le (stats w) (stats (snd (BaseStream.collect_async self w))).
Proof.
  unfold BaseStream.collect_async.
  destruct (BaseStream._cached_results self); [apply stats_le_refl|].
  pose proof (list_execute_stats_le self w) as H.
  destruct (BaseStream.list_execute self w) as [[l | e] w']; exact H.
Qed.

(** C3 (the code departs from the claim).  On six rows with chunk size
    2, [map(square)] then [filter(< 10)] then [reduce_async(add)]:
    materialising the chain brings [processed_items] to 9 (six mapped,
    three kept), and [reduce_async] then assigns it the length of the
    materialised list, 3.  The same assignment lowers a count of 9
    carried over from earlier work to 6 on a chain without stages. *)
Theorem reduce_async_lowers_processed_items :
  let ps :=
    ParallelStream.filter (ParallelStream.map sample_parallel square)
      (below 10) in
  let earlier :=
    {| source := source sample_world;
       stats := {| processed_items := 9; failed_items := 0;
                   execution_time := 0%Q; error_count := 0 |} |} in
  processed_items
    (stats (snd (BaseStream.list_execute (ParallelStream.base ps)
                   sample_world))) = 9 /\
  fst (ParallelStream.reduce_async ps add None sample_world) = Ok 14 /\
  processed_items
    (stats (snd (ParallelStream.reduce_async ps add None sample_world))) = 3 /\
  processed_items
    (stats (snd (ParallelStream.reduce_async sample_parallel add None earlier)))
  = 6.
Proof. repeat split. Qed.

(** [reduce_async] lowers none of the other three counters. *)
Lemma reduce_async_other_counters {S T} (ps : ParallelStream.t S T)
  (func : T -> T -> res T) (initial : option T) (w : World S) :
  let st' := stats (snd (ParallelStream.reduce_async ps func initial w)) in
  failed_items (stats w) <= failed_items st' /\
  (execution_time (stats w) <= execution_time st')%Q /\
  error_count (stats w) <= error_count st'.
Proof.
  unfold ParallelStream.reduce_async.
  pose proof (list_execute_stats_le (ParallelStream.base ps) w) as Hle.
  destruct (BaseStream.list_execute (ParallelStream.base ps) w)
    as [[data | e] w1]; simpl in Hle; destruct Hle as [_ [Hf [Ht He]]];
    [|simpl; auto].
  destruct data as [|x rest]; [simpl; auto|].
  destruct (_chunk_data (ParallelStream.config ps) (x :: rest))
    as [chunks | e]; [|simpl; auto].
  destruct (num_workers (ParallelStream.config ps) <=? 0); [simpl; auto|].
  destruct (map_res _ _) as [chunk_results | e].
  - destruct (functools_reduce func chunk_results initial); simpl;
      repeat split; try assumption; lia.
  - simpl. repeat split; try assumption; lia.
Qed.

(** ** Building a parallel stream *)


(** A negative step from 0 towards a length gives no index at all. *)
Lemma chunk_data_negative {A} (config : ParallelConfig) (data : list A) :
  chunk_size config < 0 -> _chunk_data config data = Ok [].
Proof.
  intros Hc. unfold _chunk_data, py_range.
  destruct (Z.eqb_spec (chunk_size config) 0) as [|_]; [lia|].
  destruct (Z.ltb_spec 0 (chunk_size config)) as [|_]; [lia|].
  pose proof (len_nonneg data).
  replace (Z.to_nat (0 - len data)) with 0%nat by lia. reflexivity.
Qed.







(** ** Retrying *)

(** With at least one attempt allowed, the loop ends within its fuel,
    having called the operation until it first succeeded or until the
    attempts ran out, and having slept once between two calls.  It
    hands back the value of the successful call, or raises what the
    last call raised, as it leaves a coroutine. *)
Lemma retry_loop_positive {Args A} (operation : nat -> Args -> res A)
  (args : Args) (delay : Q) :
  forall (fuel : nat) (count : Z) (calls : nat) (slept : list Q),
    1 <= count -> (Z.to_nat count <= fuel)%nat ->
    exists r calls' slept',
      ParallelStream.retry_loop fuel operation args count delay calls slept
      = Some (r, calls', slept') /\
      r <> Ok None /\
      (calls < calls' <= calls + Z.to_nat count)%nat /\
      slept' = repeat delay (calls' - calls - 1) ++ slept /\
      (forall v, r = Ok (Some v) -> operation (calls' - 1)%nat args = Ok v) /\
      (forall e, r = Raise e ->
                 calls' = (calls + Z.to_nat count)%nat /\
                 exists e0, operation (calls' - 1)%nat args = Raise e0 /\
                            e = out_of_coroutine e0) /\
      (forall k, (calls <= k < calls' - 1)%nat ->
                 exists e, operation k args = Raise e).
Proof.
  induction fuel as [|fuel IH]; intros count calls slept Hcount Hfuel; [lia|].
  simpl. destruct (Z.ltb_spec 0 count) as [_|]; [|lia].
  destruct (operation calls args) as [v | e] eqn:Hop.
  - exists (Ok (Some v)), (S calls), slept. split; [reflexivity|].
    split; [discriminate|]. split; [lia|].
    split; [replace (S calls - calls - 1)%nat with 0%nat by lia; reflexivity|].
    split; [|split].
    + intros v' Hv. injection Hv as <-.
      replace (S calls - 1)%nat with calls by lia. exact Hop.
    + discriminate.
    + intros k Hk. lia.
  - destruct (Z.ltb_spec 0 (count - 1)) as [Hmore | Hlast].
    + destruct (IH (count - 1) (S calls) (delay :: slept))
        as [r [calls' [slept' [Hrun [Hr [Hcalls [Hslept [Hok [Hraise Hfail]]]]]]]]];
        [lia | lia |].
      exists r, calls', slept'. split; [exact Hrun|]. split; [exact Hr|].
      split; [lia|]. split; [|split; [exact Hok | split]].
      * rewrite Hslept.
        replace (calls' - calls - 1)%nat with (S (calls' - S calls - 1)) by lia.
        cbn [repeat]. rewrite repeat_cons, <- app_assoc. reflexivity.
      * intros e' He'. destruct (Hraise e' He') as [Hc Hop']. split; [lia|].
        exact Hop'.
      * intros k Hk. destruct (Nat.eq_dec k calls) as [-> | Hne].
        -- exists e. exact Hop.
        -- apply Hfail. lia.
    + exists (Raise (out_of_coroutine e)), (S calls), slept.
      split; [reflexivity|].
      split; [discriminate|]. split; [lia|].
      split; [replace (S calls - calls - 1)%nat with 0%nat by lia; reflexivity|].
      split; [discriminate|]. split.
      * intros e' He'. injection He' as <-. split; [lia|].
        replace (S calls - 1)%nat with calls by lia. exists e.
        split; [exact Hop | reflexivity].
      * intros k Hk. lia.
Qed.

(** For a retry count of at least 1 the helper does what is asked of
    it: it never returns without a value or an exception. *)
Lemma retry_operation_positive {Args A} (operation : nat -> Args -> res A)
  (args : Args) (count : Z) (delay : Q) :
  1 <= count ->
  exists r calls slept,
    ParallelStream._retry_operation operation args count delay
    = Some (r, calls, slept) /\
    r <> Ok None /\
    (1 <= calls <= Z.to_nat count)%nat /\
    slept = repeat delay (calls - 1) /\
    (forall v, r = Ok (Some v) -> operation (calls - 1)%nat args = Ok v) /\
    (forall e, r = Raise e ->
               calls = Z.to_nat count /\
               exists e0, operation (calls - 1)%nat args = Raise e0 /\
                          e = out_of_coroutine e0) /\
    (forall k, (k < calls - 1)%nat -> exists e, operation k args = Raise e).
Proof.
  intros Hcount. unfold ParallelStream._retry_operation.
  destruct (retry_loop_positive operation args delay
              (S (Z.to_nat count)) count 0 [] Hcount)
    as [r [calls [slept [Hrun [Hr [Hcalls [Hslept [Hok [Hraise Hfail]]]]]]]]];
    [lia|].
  exists r, calls, slept. split; [exact Hrun|]. split; [exact Hr|].
  split; [lia|]. split; [|split; [exact Hok | split]].
  - rewrite Hslept, app_nil_r. f_equal. lia.
  - intros e He. destruct (Hraise e He) as [Hc Hop]. split; [lia | exact Hop].
  - intros k Hk. apply Hfail. lia.
Qed.

(** Without a positive count the loop body never runs. *)
Lemma retry_operation_nonpositive {Args A}
  (operation : nat -> Args -> res A) (args : Args) (count : Z) (delay : Q) :
  count <= 0 ->
  ParallelStream._retry_operation operation args count delay
  = Some (Ok None, 0%nat, []).
Proof.
  intros Hcount. unfold ParallelStream._retry_operation. simpl.
  destruct (Z.ltb_spec 0 count) as [|_]; [lia | reflexivity].
Qed.

(** C8 (the code departs from the claim).  With a retry count of 0
    the loop condition fails at once: the helper returns [None] without
    calling the operation a single time and without raising, whatever
    the operation and its arguments. *)
Theorem retry_zero_never_attempts :
  forall (Args A : Type) (operation : nat -> Args -> res A) (args : Args)
         (delay : Q),
    ParallelStream._retry_operation operation args 0 delay
    = Some (Ok None, 0%nat, []).
Proof. reflexivity. Qed.

(** ** Sorting and grouping *)

Lemma filter_none {X} (f : X -> bool) (l : list X) :
  (forall y, In y l -> f y = false) -> filter f l = [].
Proof.
  induction l as [|y l IH]; intros Hall; [reflexivity|]. simpl.
  rewrite (Hall y (or_introl eq_refl)). apply IH.
  intros z Hz. apply Hall. right. exact Hz.
Qed.

Section GroupingFacts.
Context {A K : Type} {ord : PyOrd K} {total : TotalOrd K}.

Lemma py_eq_refl (a : K) : py_eq a a = true.
Proof. apply py_eq_spec. reflexivity. Qed.

Lemma py_eq_false (a b : K) : py_eq a b = false <-> a <> b.
Proof.
  split.
  - intros Hf Heq. apply py_eq_spec in Heq. congruence.
  - intros Hne. destruct (py_eq a b) eqn:E; [|reflexivity].
    apply py_eq_spec in E. contradiction.
Qed.

Lemma py_le_trans (a b c : K) :
  py_lt b a = false -> py_lt c b = false -> py_lt c a = false.
Proof.
  intros Hab Hbc. destruct (py_lt c a) eqn:Hca; [|reflexivity].
  destruct (py_lt a b) eqn:Hlt.
  - rewrite (py_lt_trans c a b Hca Hlt) in Hbc. discriminate.
  - assert (a = b) by (apply py_lt_total; assumption). subst b.
    congruence.
Qed.

Lemma in_insort (x z : K * A) (l : list (K * A)) :
  In z (insort x l) <-> z = x \/ In z l.
Proof.
  induction l as [|y l IH]; simpl.
  - intuition congruence.
  - destruct (py_lt (fst x) (fst y)); simpl; [intuition congruence|].
    rewrite IH. intuition congruence.
Qed.

Lemma insort_sorted (x : K * A) (l : list (K * A)) :
  StronglySorted key_le l -> StronglySorted key_le (insort x l).
Proof.
  induction 1 as [|y l Hsorted IH Hall]; simpl.
  - constructor; constructor.
  - destruct (py_lt (fst x) (fst y)) eqn:Hlt.
    + assert (Hxy : key_le x y).
      { unfold key_le.
        destruct (py_lt (fst y) (fst x)) eqn:Hyx; [|reflexivity].
        pose proof (py_lt_trans _ _ _ Hlt Hyx) as Hxx.
        rewrite py_lt_irrefl in Hxx. discriminate. }
      constructor; [constructor; assumption|].
      constructor; [exact Hxy|].
      rewrite Forall_forall in *. intros z Hz. unfold key_le in *.
      apply py_le_trans with (b := fst y); [exact Hxy | apply Hall, Hz].
    + constructor; [exact IH|].
      rewrite Forall_forall in *. intros z Hz. apply in_insort in Hz.
      destruct Hz as [-> | Hz]; [exact Hlt | apply Hall, Hz].
Qed.

(** Stability: an item goes behind the items of its own key. *)
Lemma insort_with_key (k : K) (x : K * A) (l : list (K * A)) :
  StronglySorted key_le l ->
  with_key k (insort x l) = with_key k l ++ with_key k [x].
Proof.
  induction 1 as [|y l Hsorted IH Hall]; [reflexivity|].
  cbn [insort]. destruct (py_lt (fst x) (fst y)) eqn:Hlt.
  - change (with_key k (x :: y :: l))
      with (if py_eq (fst x) k then x :: with_key k (y :: l)
            else with_key k (y :: l)).
    change (with_key k [x]) with (if py_eq (fst x) k then [x] else []).
    destruct (py_eq (fst x) k) eqn:Hx; [|rewrite app_nil_r; reflexivity].
    apply py_eq_spec in Hx.
    assert (Hnone : with_key k (y :: l) = []).
    { apply filter_none. intros z Hz. apply py_eq_false. intros Hzk.
      assert (Hzx : fst z = fst x) by congruence.
      destruct Hz as [<- | Hz].
      - rewrite Hzx, py_lt_irrefl in Hlt. discriminate.
      - rewrite Forall_forall in Hall. specialize (Hall z Hz).
        unfold key_le in Hall. rewrite Hzx in Hall. congruence. }
    rewrite Hnone. reflexivity.
  - unfold with_key in *. cbn [filter]. rewrite IH.
    destruct (py_eq (fst y) k); reflexivity.
Qed.

Lemma insort_permutation (x : K * A) (l : list (K * A)) :
  Permutation (insort x l) (x :: l).
Proof.
  induction l as [|y l IH]; simpl; [reflexivity|].
  destruct (py_lt (fst x) (fst y)); [reflexivity|].
  rewrite IH. apply perm_swap.
Qed.

(** [sorted]: the result is in key order, holds the same items, and
    keeps the items of one key in their original order. *)
Lemma sort_from (l acc : list (K * A)) :
  StronglySorted key_le acc ->
  let sorted := fold_left (fun acc x => insort x acc) l acc in
  StronglySorted key_le sorted /\
  Permutation sorted (acc ++ l) /\
  forall k, with_key k sorted = with_key k acc ++ with_key k l.
Proof.
  revert acc. induction l as [|x l IH]; intros acc Hacc; simpl.
  - split; [exact Hacc|]. split; [rewrite app_nil_r; reflexivity|].
    intros k. rewrite app_nil_r. reflexivity.
  - destruct (IH (insort x acc) (insort_sorted x acc Hacc))
      as [Hsorted [Hperm Hkey]].
    split; [exact Hsorted|]. split.
    + rewrite Hperm, insort_permutation. apply Permutation_middle.
    + intros k. rewrite Hkey, insort_with_key by exact Hacc.
      rewrite <- app_assoc. unfold with_key. simpl.
      destruct (py_eq (fst x) k); reflexivity.
Qed.

Lemma sort_decorated_spec (l : list (K * A)) :
  StronglySorted key_le (sort_decorated l) /\
  Permutation (sort_decorated l) l /\
  forall k, with_key k (sort_decorated l) = with_key k l.
Proof.
  destruct (sort_from l [] (SSorted_nil key_le)) as [Hs [Hp Hk]].
  split; [exact Hs|]. split; [exact Hp | exact Hk].
Qed.
End GroupingFacts.

Section GroupbyFacts.
Context {A K : Type} {ord : PyOrd K} {total : TotalOrd K}.

(** The groups laid end to end are the items in the order given. *)
Lemma groupby_from_concat (l : list (K * A)) :
  forall tgtkey group,
    concat (map snd (groupby_from tgtkey group l)) = rev group ++ map snd l.
Proof.
  induction l as [|[currkey x] l IH]; intros tgtkey group; simpl.
  - reflexivity.
  - destruct (py_eq currkey tgtkey); simpl; rewrite IH; simpl.
    + rewrite <- app_assoc. reflexivity.
    + reflexivity.
Qed.

Lemma groupby_concat (l : list (K * A)) :
  concat (map snd (groupby l)) = map snd l.
Proof.
  destruct l as [|[k x] l]; [reflexivity|]. simpl.
  rewrite groupby_from_concat. reflexivity.
Qed.

(** On items in key order, all at or above the key of the open group:
    the keys of the groups are distinct, they are the key of the open
    group and the keys of the items, and each group holds the items of
    its key (behind what the open group already holds). *)
Lemma groupby_from_sorted (l : list (K * A)) :
  forall tgtkey group,
    StronglySorted key_le l ->
    Forall (fun y => py_lt (fst y) tgtkey = false) l ->
    NoDup (map fst (groupby_from tgtkey group l)) /\
    (forall k, In k (map fst (groupby_from tgtkey group l)) <->
               k = tgtkey \/ In k (map fst l)) /\
    (forall k g, In (k, g) (groupby_from tgtkey group l) ->
                 g = (if py_eq k tgtkey then rev group else [])
                     ++ map snd (with_key k l)).
Proof.
  induction l as [|[currkey x] l IH]; intros tgtkey group Hsorted Hlow.
  - simpl. split; [constructor; [intros [] | constructor]|]. split.
    + intros k. intuition congruence.
    + intros k g [Heq | []]. injection Heq as <- <-.
      rewrite py_eq_refl, app_nil_r. reflexivity.
  - apply StronglySorted_inv in Hsorted. destruct Hsorted as [Hsorted Hall].
    apply Forall_cons_iff in Hlow. destruct Hlow as [Hcurr Hlow].
    simpl in Hcurr. rewrite Forall_forall in Hall, Hlow.
    cbn [groupby_from]. destruct (py_eq currkey tgtkey) eqn:Heq.
    + apply py_eq_spec in Heq. subst currkey.
      destruct (IH tgtkey (x :: group) Hsorted) as [Hnodup [Hkeys Hgroups]].
      { rewrite Forall_forall. exact Hlow. }
      split; [exact Hnodup|]. split.
      * intros k. rewrite Hkeys. simpl. intuition congruence.
      * intros k g Hin. rewrite (Hgroups k g Hin).
        unfold with_key. cbn [filter fst].
        destruct (py_eq k tgtkey) eqn:Hk.
        -- apply py_eq_spec in Hk. subst k. rewrite py_eq_refl. simpl.
           rewrite <- app_assoc. reflexivity.
        -- assert (Hk' : py_eq tgtkey k = false).
           { apply py_eq_false. apply py_eq_false in Hk. congruence. }
           rewrite Hk'. reflexivity.
    + apply py_eq_false in Heq.
      destruct (IH currkey [x] Hsorted) as [Hnodup [Hkeys Hgroups]].
      { rewrite Forall_forall. intros y Hy. apply (Hall y Hy). }
      (* no later group has the key of the group just closed *)
      assert (Hfresh : forall k, k = currkey \/ In k (map fst l) ->
                                 k <> tgtkey).
      { intros k [-> | Hk]; [exact Heq|]. intros ->.
        apply in_map_iff in Hk. destruct Hk as [y [Hy Hin]].
        apply Heq. apply py_lt_total; [exact Hcurr|].
        specialize (Hall y Hin). unfold key_le in Hall. simpl in Hall.
        rewrite Hy in Hall. exact Hall. }
      split; [|split].
      * simpl. constructor; [|exact Hnodup].
        intros Hin. apply Hkeys in Hin. exact (Hfresh tgtkey Hin eq_refl).
      * intros k. simpl. rewrite Hkeys. intuition congruence.
      * intros k g [Hhead | Hin].
        -- injection Hhead as <- <-. rewrite py_eq_refl.
           assert (Hnone : with_key tgtkey ((currkey, x) :: l) = []).
           { apply filter_none. intros y Hy. apply py_eq_false.
             apply Hfresh. destruct Hy as [<- | Hy]; [left; reflexivity|].
             right. apply in_map. exact Hy. }
           rewrite Hnone, app_nil_r. reflexivity.
        -- rewrite (Hgroups k g Hin).
           assert (Hk : k <> tgtkey).
           { apply Hfresh. apply Hkeys.
             change k with (fst (k, g)). apply in_map. exact Hin. }
           apply py_eq_false in Hk. rewrite Hk.
           unfold with_key. cbn [filter fst app].
           destruct (py_eq k currkey) eqn:Hkc.
           ++ apply py_eq_spec in Hkc. subst k. rewrite py_eq_refl.
              reflexivity.
           ++ assert (Hkc' : py_eq currkey k = false).
              { apply py_eq_false. apply py_eq_false in Hkc. congruence. }
              rewrite Hkc'. reflexivity.
Qed.

(** [groupby] over items in key order: one group per key, holding the
    items of that key in the order given. *)
Lemma groupby_sorted (l : list (K * A)) :
  StronglySorted key_le l ->
  NoDup (map fst (groupby l)) /\
  (forall k, In k (map fst (groupby l)) <-> In k (map fst l)) /\
  (forall k g, In (k, g) (groupby l) -> g = map snd (with_key k l)).
Proof.
  intros Hsorted. destruct l as [|[k0 x] l].
  - simpl. split; [constructor|]. split; [reflexivity | intros k g []].
  - apply StronglySorted_inv in Hsorted. destruct Hsorted as [Hsorted Hall].
    destruct (groupby_from_sorted l k0 [x] Hsorted Hall)
      as [Hnodup [Hkeys Hgroups]].
    cbn [groupby]. split; [exact Hnodup|]. split.
    + intros k. rewrite Hkeys. simpl. intuition congruence.
    + intros k g Hin. rewrite (Hgroups k g Hin).
      unfold with_key. cbn [filter fst rev app].
      destruct (py_eq k k0) eqn:Hk.
      * apply py_eq_spec in Hk. subst k. rewrite py_eq_refl. reflexivity.
      * assert (Hk' : py_eq k0 k = false).
        { apply py_eq_false. apply py_eq_false in Hk. congruence. }
        rewrite Hk'. reflexivity.
Qed.
End GroupbyFacts.

Lemma decorate_total {A K} (key : A -> K) (data : list A) :
  decorate (fun x => Ok (key x)) data
  = Ok (List.map (fun x => (key x, x)) data).
Proof.
  unfold decorate. induction data as [|x data IH]; simpl in *;
    [|rewrite IH]; reflexivity.
Qed.

Lemma with_key_decorated {A K} `{PyOrd K} (key : A -> K) (k : K)
  (data : list A) :
  List.map snd (with_key k (List.map (fun x => (key x, x)) data))
  = filter (fun x => py_eq (key x) k) data.
Proof.
  unfold with_key. induction data as [|x data IH]; simpl; [reflexivity|].
  destruct (py_eq (key x) k); simpl; rewrite IH; reflexivity.
Qed.

(** What [collect()] returns after [group_by] with a key that never
    raises. *)
Lemma group_by_collect {S T K} `{PyOrd K} (s : Stream.t S T) (key : T -> K)
  (w : World S) (data : list T) :
  fst (Stream.collect s w) = Ok data ->
  fst (Stream.collect (Stream.group_by s (fun x => Ok (key x))) w)
  = Ok (groupby (sort_decorated (List.map (fun x => (key x, x)) data))).
Proof.
  unfold Stream.collect. rewrite list_execute_result. intros Hdata.
  unfold BaseStream.list_execute, BaseStream._execute, Stream.group_by.
  cbn [BaseStream.transforms apply_transforms].
  destruct (apply_transforms (BaseStream.transforms s)
              (iter_source (source w))) as [[it | e] d]; [|discriminate].
  simpl in Hdata. unfold group_by_transform.
  destruct (py_list it) as [r d']. simpl in Hdata. subst r.
  simpl bind. rewrite decorate_total. simpl bind.
  cbv iota beta.
  pose proof (py_list_iter_list d0
                (groupby (sort_decorated
                            (List.map (fun x => (key x, x)) data)))
                (Stop d0)) as Hl.
  destruct (py_list (iter_list d0 _ (Stop d0))) as [r2 d2].
  simpl in *. rewrite app_nil_r in Hl. exact Hl.
Qed.

#[export] Instance TotalOrd_Z : TotalOrd Z.
Proof.
  split; simpl.
  - intros a b. apply Z.eqb_eq.
  - intros a. apply Z.ltb_irrefl.
  - intros a b c Hab Hbc. apply Z.ltb_lt in Hab, Hbc. apply Z.ltb_lt. lia.
  - intros a b Hab Hba. apply Z.ltb_ge in Hab, Hba. lia.
Qed.

(** C6.  For every input sequence [data] (what the stream before
    [group_by] materialises to) and every key function into a totally
    ordered key type, [group_by] followed by [collect()] returns a list
    of pairs in which no key occurs twice, whose keys are exactly the
    keys of the input elements, in which the list paired with a key
    is the input restricted to the elements of that key, wherever they
    stood, and whose lists laid end to end are a rearrangement of the
    input: every element is in one group and one only. *)
Theorem group_by_groups :
  forall (S T K : Type) (ord : PyOrd K) (total : TotalOrd K)
         (s : Stream.t S T) (key : T -> K) (w : World S) (data : list T),
    fst (Stream.collect s w) = Ok data ->
    exists out,
      fst (Stream.collect (Stream.group_by s (fun x => Ok (key x))) w)
      = Ok out /\
      NoDup (List.map fst out) /\
      (forall k, In k (List.map fst out) <->
                 exists x, In x data /\ key x = k) /\
      (forall k g, In (k, g) out ->
                   g = filter (fun x => py_eq (key x) k) data) /\
      Permutation (concat (List.map snd out)) data.
Proof.
  intros S T K ord total s key w data Hdata.
  eexists. split; [apply group_by_collect; exact Hdata|].
  set (decorated := List.map (fun x => (key x, x)) data).
  destruct (sort_decorated_spec decorated) as [Hsorted [Hperm Hstable]].
  destruct (groupby_sorted (sort_decorated decorated) Hsorted)
    as [Hnodup [Hkeys Hgroups]].
  split; [exact Hnodup|]. split; [|split].
  - intros k. rewrite Hkeys. split.
    + intros Hin. apply in_map_iff in Hin. destruct Hin as [[k' x] [Hk Hin]].
      simpl in Hk. subst k'.
      apply (Permutation_in _ Hperm) in Hin. unfold decorated in Hin.
      apply in_map_iff in Hin. destruct Hin as [x' [Heq Hin]].
      injection Heq as Hk <-. exists x'. split; assumption.
    + intros [x [Hin Hk]]. apply in_map_iff. exists (k, x). split;
        [reflexivity|].
      apply (Permutation_in _ (Permutation_sym Hperm)). unfold decorated.
      apply in_map_iff. exists x. split; [rewrite Hk; reflexivity | exact Hin].
  - intros k g Hin. rewrite (Hgroups k g Hin), Hstable.
    apply with_key_decorated.
  - rewrite groupby_concat.
    rewrite (Permutation_map snd Hperm). unfold decorated.
    rewrite map_map. simpl. rewrite map_id. reflexivity.
Qed.

Lemma group_by_groups_witness :
  exists out,
    fst (Stream.collect
           (Stream.group_by Stream.new (fun x => Ok (x mod 3))) sample_world)
    = Ok out /\
    NoDup (List.map fst out) /\
    (forall k, In k (List.map fst out) <->
               exists x, In x sample_rows /\ x mod 3 = k) /\
    (forall k g, In (k, g) out ->
                 g = filter (fun x => py_eq (x mod 3) k) sample_rows) /\
    Permutation (concat (List.map snd out)) sample_rows.
Proof.
  apply (group_by_groups Z Z Z PyOrd_Z TotalOrd_Z Stream.new
           (fun x => x mod 3) sample_world sample_rows).
  reflexivity.
Defined.

(** ** Concrete runs *)

(** Six rows, chunks of two, [map(square)]: the squares in order, and
    six items counted. *)
Example run_parallel_map :
  let run :=
    BaseStream.collect_async
      (ParallelStream.base (ParallelStream.map sample_parallel square))
      sample_world in
  fst (fst run) = Ok [1; 4; 9; 16; 25; 36] /\
  processed_items (stats (snd run)) = 6 /\
  error_count (stats (snd run)) = 0.
Proof. repeat split. Qed.

(** [filter] counts what it keeps. *)
Example run_parallel_filter :
  let run :=
    BaseStream.collect_async
      (ParallelStream.base (ParallelStream.filter sample_parallel (below 3)))
      sample_world in
  fst (fst run) = Ok [1; 2] /\ processed_items (stats (snd run)) = 2.
Proof. repeat split. Qed.

(** A function that raises in the third chunk of three: the call fails,
    one error is counted, and the two chunks handed out before are
    counted as processed. *)
Example run_parallel_map_failure :
  let run :=
    BaseStream.collect_async
      (ParallelStream.base (ParallelStream.map sample_parallel (fails_at 5)))
      sample_world in
  fst (fst run) = Raise ParallelExecutionError /\
  BaseStream._cached_results (snd (fst run)) = None /\
  error_count (stats (snd run)) = 1 /\
  processed_items (stats (snd run)) = 4.
Proof. repeat split. Qed.

(** Lazy stages pull one element at a time: the failure at 3 leaves the
    later rows in the generator. *)
Example run_sequential_failure :
  Stream.collect
    (Stream.map (Stream.filter Stream.new (below 5)) (fails_at 3))
    sample_world
  = (Raise (UserError "boom"),
     {| source := OneShot [4; 5; 6] None; stats := new_stats |}).
Proof. reflexivity. Qed.

(** A failure under [group_by] happens while the chain is set up and is
    wrapped. *)
Example run_group_by_failure :
  fst (Stream.collect
         (Stream.group_by (Stream.map Stream.new (fails_at 3))
            (fun x => Ok (x mod 3)))
         sample_world)
  = Raise StreamError.
Proof. reflexivity. Qed.

Example run_group_by :
  fst (Stream.collect (Stream.group_by Stream.new (fun x => Ok (x mod 3)))
         sample_world)
  = Ok [(0, [3; 6]); (1, [1; 4]); (2, [2; 5])].
Proof. reflexivity. Qed.

(** A function that raises [StopIteration] tells the two modes apart:
    the sequential [map] ends there and returns the values so far, the
    parallel one fails as for any other exception of a worker. *)
Example run_map_stop_iteration :
  fst (Stream.collect (Stream.map Stream.new (stop_at 3)) sample_world)
  = Ok [1; 4] /\
  fst (fst (BaseStream.collect_async
              (ParallelStream.base
                 (ParallelStream.map sample_parallel (stop_at 3)))
              sample_world))
  = Raise ParallelExecutionError /\
  fst (Stream.collect (Stream.filter Stream.new
                         (fun x => if x =? 3 then Raise StopIteration
                                   else Ok true))
         sample_world)
  = Ok [1; 2].
Proof. repeat split. Qed.

(** Two failures, three attempts allowed: the third call succeeds
    after two sleeps. *)
Example run_retry_recovers :
  ParallelStream._retry_operation (flaky 2) tt 3 1%Q
  = Some (Ok (Some 2%nat), 3%nat, [1%Q; 1%Q]).
Proof. reflexivity. Qed.

(** Attempts exhausted: the last failure is raised. *)
Example run_retry_exhausted :
  ParallelStream._retry_operation (flaky 5) tt 3 1%Q
  = Some (Raise (UserError "transient"), 3%nat, [1%Q; 1%Q]).
Proof. reflexivity. Qed.

(** An operation that raises [StopIteration] on every call is retried
    like any other; the last failure leaves the coroutine as a
    [RuntimeError]. *)
Example run_retry_stop_iteration :
  ParallelStream._retry_operation
    (fun (_ : nat) (_ : unit) => @Raise nat StopIteration) tt 2 1%Q
  = Some (Raise (RuntimeError "coroutine raised StopIteration"), 2%nat,
          [1%Q]).
Proof. reflexivity. Qed.


(** * Further properties *)

(** ** Effects of a parallel stage *)

Lemma delta_eq (a b : Delta) :
  d_pulled a = d_pulled b -> d_processed a = d_processed b ->
  d_errors a = d_errors b -> a = b.
Proof. destruct a, b. simpl. intros -> -> ->. reflexivity. Qed.

Lemma dplus_d0_l (d : Delta) : dplus d0 d = d.
Proof. apply delta_eq; reflexivity. Qed.

Lemma dplus_d0_r (d : Delta) : dplus d d0 = d.
Proof. apply delta_eq; simpl; lia. Qed.

Lemma dplus_assoc (a b c : Delta) : dplus (dplus a b) c = dplus a (dplus b c).
Proof. apply delta_eq; simpl; lia. Qed.

Lemma py_list_pair {A} (it : Iter A) :
  py_list it = (fst (py_list it), snd (py_list it)).
Proof. apply surjective_pairing. Qed.

Lemma py_list_yield_from_effects {B} (r : list B) (k : Delta -> Iter B) :
  (forall d, snd (py_list (k d)) = dplus d (snd (py_list (k d0)))) ->
  forall d,
    snd (py_list (ParallelStream.yield_from d r k))
    = dplus d (snd (py_list (k d0))).
Proof.
  intros Hk. induction r as [|x r IH]; intros d.
  - simpl. apply Hk.
  - simpl. specialize (IH d0).
    destruct (py_list (ParallelStream.yield_from d0 r k)) as [r' d'].
    simpl in *. rewrite IH, dplus_d0_l. reflexivity.
Qed.

(** Run to its end, the loop over the chunk results adds [tally] to
    the effects pending when it starts. *)
Lemma py_list_yield_chunks_effects {B} (chunk_results : list (res (list B))) :
  forall d,
    snd (py_list (ParallelStream.yield_chunks d chunk_results))
    = dplus d (tally chunk_results).
Proof.
  induction chunk_results as [|r rest IH]; intros d.
  - simpl. rewrite dplus_d0_r. reflexivity.
  - destruct r as [chunk_result | e]; [|reflexivity].
    cbn [ParallelStream.yield_chunks tally].
    rewrite py_list_yield_from_effects.
    + rewrite IH. apply delta_eq; simpl; lia.
    + intros d'. rewrite !IH. apply delta_eq; simpl; lia.
Qed.

Lemma tally_pulled {B} (chunk_results : list (res (list B))) :
  d_pulled (tally chunk_results) = 0%nat.
Proof.
  induction chunk_results as [|[r | e] rest IH]; simpl;
    [reflexivity | exact IH | reflexivity].
Qed.

Lemma tally_ok {B} (chunk_results : list (res (list B)))
  (rs : list (list B)) :
  map_res (fun r => r) chunk_results = Ok rs ->
  tally chunk_results = processed (List.length (concat rs)).
Proof.
  revert rs. induction chunk_results as [|[r | e] rest IH]; intros rs Hrs;
    simpl in Hrs.
  - injection Hrs as <-. reflexivity.
  - destruct (map_res (fun r => r) rest) as [rs' | e]; [|discriminate].
    injection Hrs as <-. simpl. rewrite (IH rs' eq_refl), length_app.
    apply delta_eq; reflexivity.
  - discriminate.
Qed.

Lemma tally_failed {B} (chunk_results : list (res (list B))) (e : exn) :
  map_res (fun r => r) chunk_results = Raise e ->
  d_errors (tally chunk_results) = 1%nat.
Proof.
  revert e. induction chunk_results as [|[r | e'] rest IH]; intros e Hrs;
    simpl in Hrs.
  - discriminate.
  - destruct (map_res (fun r => r) rest) as [rs' | e2] eqn:Hrest;
      [discriminate|].
    simpl. apply (IH e2). reflexivity.
  - reflexivity.
Qed.

(** With a valid configuration and an upstream that drains to [data],
    a parallel stage drains to the joined chunk results, or to the
    parallel execution error, and adds the tally of its chunk results
    to the effects of the upstream. *)
Lemma chunked_run {A B X} (config : ParallelConfig)
  (wrapper : X * list A -> res (list B)) (func : X) (it : Iter A)
  (data : list A) (d : Delta) :
  1 <= chunk_size config -> 1 <= num_workers config ->
  py_list it = (Ok data, d) ->
  exists chunks,
    _chunk_data config data = Ok chunks /\
    concat chunks = data /\
    py_list (ParallelStream.chunked config wrapper func it)
    = (match map_res (fun chunk => wrapper (func, chunk)) chunks with
       | Ok rs => Ok (concat rs)
       | Raise _ => Raise ParallelExecutionError
       end,
       dplus d (tally (List.map (fun chunk => wrapper (func, chunk)) chunks))).
Proof.
  intros Hc Hn Hit.
  destruct (chunk_data_ok config data Hc) as [chunks [Hchunks [Hcat _]]].
  exists chunks. split; [exact Hchunks|]. split; [exact Hcat|].
  unfold ParallelStream.chunked. rewrite Hit, Hchunks.
  destruct (Z.leb_spec (num_workers config) 0) as [|_]; [lia|].
  rewrite py_list_pair, py_list_yield_chunks, py_list_yield_chunks_effects.
  unfold ParallelStream.executor_map. rewrite !map_res_map, map_map.
  reflexivity.
Qed.

Lemma bump_dplus (a b : Delta) (st : ExecutionStats) :
  bump (dplus a b) st = bump b (bump a st).
Proof. unfold bump. simpl. f_equal; lia. Qed.

Lemma bump_processed (n : nat) (st : ExecutionStats) :
  bump (processed n) st
  = {| processed_items := processed_items st + Z.of_nat n;
       failed_items := failed_items st;
       execution_time := execution_time st;
       error_count := error_count st |}.
Proof. unfold bump. simpl. f_equal. lia. Qed.

(** A parallel stage appended to a chain that materialises to [data]:
    the chain so extended materialises to the joined chunk results (or
    fails as a whole), leaves the source as the shorter chain does, and
    adds the tally of the chunk results to the statistics. *)
Lemma stage_list_execute {S A B X} (self : BaseStream.t S A)
  (config : ParallelConfig) (wrapper : X * list A -> res (list B))
  (func : X) (cached : option (list B)) (w w1 : World S) (data : list A) :
  1 <= chunk_size config -> 1 <= num_workers config ->
  BaseStream.list_execute self w = (Ok data, w1) ->
  exists chunks,
    _chunk_data config data = Ok chunks /\
    concat chunks = data /\
    BaseStream.list_execute
      {| BaseStream.transforms :=
           TSnoc (BaseStream.transforms self)
             (fun it =>
                (Ok (ParallelStream.chunked config wrapper func it), d0));
         BaseStream._cached_results := cached |} w
    = (match map_res (fun chunk => wrapper (func, chunk)) chunks with
       | Ok rs => Ok (concat rs)
       | Raise _ => Raise ParallelExecutionError
       end,
       {| source := source w1;
          stats :=
            bump (tally (List.map (fun chunk => wrapper (func, chunk)) chunks))
              (stats w1) |}).
Proof.
  intros Hc Hn. unfold BaseStream.list_execute, BaseStream._execute.
  cbn [BaseStream.transforms apply_transforms].
  destruct (apply_transforms (BaseStream.transforms self)
              (iter_source (source w))) as [[it | e] d]; [|discriminate].
  destruct (py_list it) as [r d'] eqn:Hit. intros Hrun.
  injection Hrun as -> <-.
  destruct (chunked_run config wrapper func it data d' Hc Hn Hit)
    as [chunks [Hchunks [Hcat Hrun]]].
  exists chunks. split; [exact Hchunks|]. split; [exact Hcat|].
  cbv iota beta. rewrite Hrun. f_equal. unfold commit. cbn [source stats].
  f_equal.
  - f_equal. simpl. rewrite tally_pulled. lia.
  - rewrite dplus_d0_r, <- dplus_assoc. apply bump_dplus.
Qed.

Lemma filter_res_app {A} (p : A -> res bool) (l1 l2 : list A) :
  filter_res p (l1 ++ l2)
  = (r1 <- filter_res p l1 ;; r2 <- filter_res p l2 ;; Ok (r1 ++ r2)).
Proof.
  induction l1 as [|x l1 IH]; simpl.
  - destruct (filter_res p l2); reflexivity.
  - destruct (p x) as [b | e]; simpl; [|reflexivity]. rewrite IH.
    destruct (filter_res p l1); simpl; [|reflexivity].
    destruct (filter_res p l2); simpl; [|reflexivity].
    destruct b; reflexivity.
Qed.

(** Filtering chunk by chunk and joining is filtering the joined
    list. *)
Lemma filter_res_concat {A} (p : A -> res bool) (chunks : list (list A)) :
  filter_res p (concat chunks)
  = (rs <- map_res (filter_res p) chunks ;; Ok (concat rs)).
Proof.
  induction chunks as [|c chunks IH]; simpl; [reflexivity|].
  rewrite filter_res_app, IH. destruct (filter_res p c); simpl; [|reflexivity].
  destruct (map_res (filter_res p) chunks); reflexivity.
Qed.

Lemma filter_res_total {A} (p : A -> bool) (l : list A) :
  filter_res (fun x => Ok (p x)) l = Ok (filter p l).
Proof.
  induction l as [|x l IH]; simpl; [reflexivity|]. rewrite IH. simpl.
  destruct (p x); reflexivity.
Qed.

Lemma filter_res_ext {A} (p q : A -> res bool) (l : list A) :
  (forall x, p x = q x) -> filter_res p l = filter_res q l.
Proof.
  intros Hpq. induction l as [|x l IH]; simpl; [reflexivity|].
  rewrite Hpq, IH. reflexivity.
Qed.

(** Over an upstream that drains to [data], a lazily filtered iterator
    drains to [list(filter(predicate, data))]. *)
Lemma py_list_py_filter_list {A} (predicate : A -> res bool) (it : Iter A)
  (data : list A) :
  fst (py_list it) = Ok data ->
  fst (py_list (py_filter predicate it)) = list_filter predicate data.
Proof.
  revert data. induction it as [d | d e | d a rest IH]; intros data Hd.
  - simpl in Hd. injection Hd as <-. reflexivity.
  - discriminate.
  - rewrite py_list_cons in Hd. apply bind_ok in Hd.
    destruct Hd as [data' [Hd' Hcons]]. injection Hcons as <-.
    simpl py_filter. simpl list_filter.
    destruct (predicate a) as [[|] | e].
    + rewrite py_list_cons, (IH data' Hd'). reflexivity.
    + rewrite py_list_after, (IH data' Hd').
      destruct (list_filter predicate data'); reflexivity.
    + destruct e; reflexivity.
Qed.

Lemma list_filter_ok {A} (predicate : A -> res bool) (data l : list A) :
  filter_res predicate data = Ok l -> list_filter predicate data = Ok l.
Proof.
  revert l. induction data as [|x data IH]; intros l Hl; simpl in *;
    [exact Hl|].
  destruct (predicate x) as [b | e]; [|discriminate]. simpl in Hl.
  destruct (filter_res predicate data) as [ys | e]; [|discriminate].
  rewrite (IH ys eq_refl). exact Hl.
Qed.

(** A predicate that never raises [StopIteration] is asked about the
    whole list. *)
Lemma list_filter_through {A} (predicate : A -> res bool) (data : list A) :
  (forall x, predicate x <> Raise StopIteration) ->
  list_filter predicate data = filter_res predicate data.
Proof.
  intros Hthrough. induction data as [|x data IH]; simpl; [reflexivity|].
  pose proof (Hthrough x) as Hx. destruct (predicate x) as [b | e]; simpl.
  - rewrite IH. reflexivity.
  - destruct e; try reflexivity. congruence.
Qed.

(** Under such a predicate a filtered iterator that drains has drained
    the iterator under it. *)
Lemma py_filter_drains {A} (predicate : A -> res bool) (it : Iter A)
  (l : list A) :
  (forall x, predicate x <> Raise StopIteration) ->
  fst (py_list (py_filter predicate it)) = Ok l ->
  exists data, fst (py_list it) = Ok data.
Proof.
  intros Hthrough. revert l.
  induction it as [d | d e | d a rest IH]; intros l Hl.
  - exists []. reflexivity.
  - discriminate.
  - simpl in Hl. pose proof (Hthrough a) as Ha.
    destruct (predicate a) as [[|] | e].
    + rewrite py_list_cons in Hl. apply bind_ok in Hl.
      destruct Hl as [l' [Hl' _]]. destruct (IH l' Hl') as [data Hdata].
      exists (a :: data). rewrite py_list_cons, Hdata. reflexivity.
    + rewrite py_list_after in Hl. destruct (IH l Hl) as [data Hdata].
      exists (a :: data). rewrite py_list_cons, Hdata. reflexivity.
    + destruct e; try discriminate. congruence.
Qed.

Lemma chunked_filter_result {A} (config : ParallelConfig)
  (predicate : A -> res bool) (it : Iter A) :
  1 <= chunk_size config -> 1 <= num_workers config ->
  fst (py_list
         (ParallelStream.chunked config
            ParallelStream._parallel_filter_wrapper predicate it))
  = match fst (py_list it) with
    | Raise e => Raise e
    | Ok data =>
        match filter_res predicate data with
        | Ok l => Ok l
        | Raise _ => Raise ParallelExecutionError
        end
    end.
Proof.
  intros Hc Hn. rewrite chunked_result by assumption.
  destruct (fst (py_list it)) as [data | e]; [|reflexivity].
  destruct (chunk_data_ok config data Hc) as [chunks [Hchunks [Hcat _]]].
  rewrite Hchunks. simpl bind. rewrite <- Hcat.
  rewrite filter_res_concat. unfold ParallelStream._parallel_filter_wrapper.
  destruct (map_res (filter_res predicate) chunks); reflexivity.
Qed.

(** X1.  For every predicate without side effects, every pipeline
    feeding it, every chunk size and worker count of at least 1: when
    the predicate returns a truth value on every element of what the
    pipeline materialises to, the parallel [filter] followed by
    [collect_async] and the sequential [filter] followed by [collect]
    return the same list, the kept elements of the input in input
    order.  Whenever the parallel call returns a list, the sequential
    call returns that list; the converse holds for every predicate that
    does not raise [StopIteration], which alone ends a sequential
    [filter] early instead of failing it. *)
Theorem parallel_filter_matches_sequential :
  forall (S T : Type) (s : Stream.t S T) (predicate : T -> res bool)
         (w : World S) (n c : Z) (tmo : option Q),
    1 <= c -> 1 <= n ->
    exists ps,
      Stream.parallel s (Some n) (Some c) tmo = Ok ps /\
      (forall (data l : list T),
          fst (Stream.collect s w) = Ok data ->
          filter_res predicate data = Ok l ->
          fst (Stream.collect (Stream.filter s predicate) w) = Ok l /\
          fst (fst (BaseStream.collect_async
                      (ParallelStream.base
                         (ParallelStream.filter ps predicate)) w))
          = Ok l) /\
      (forall l,
          fst (fst (BaseStream.collect_async
                      (ParallelStream.base
                         (ParallelStream.filter ps predicate)) w))
          = Ok l ->
          fst (Stream.collect (Stream.filter s predicate) w) = Ok l) /\
      (forall l,
          (forall x, predicate x <> Raise StopIteration) ->
          (fst (Stream.collect (Stream.filter s predicate) w) = Ok l <->
           fst (fst (BaseStream.collect_async
                       (ParallelStream.base
                          (ParallelStream.filter ps predicate)) w))
           = Ok l)) /\
      (forall (p : T -> bool) (data : list T),
          (forall x, predicate x = Ok (p x)) ->
          fst (Stream.collect s w) = Ok data ->
          fst (Stream.collect (Stream.filter s predicate) w)
          = Ok (filter p data) /\
          fst (fst (BaseStream.collect_async
                      (ParallelStream.base
                         (ParallelStream.filter ps predicate)) w))
          = Ok (filter p data)).
Proof.
  intros S T s predicate w n c tmo Hc Hn.
  eexists. split; [reflexivity|].
  assert (Hcs : Stream.py_or (Some c) 1000 = c).
  { simpl. destruct (Z.eqb_spec c 0); [lia | reflexivity]. }
  assert (Hnw : Stream.py_or (Some n) 1 = n).
  { simpl. destruct (Z.eqb_spec n 0); [lia | reflexivity]. }
  assert (Hpar :
    forall it : Iter T,
      fst (py_list
             (ParallelStream.chunked
                {| chunk_size := Stream.py_or (Some c) 1000;
                   num_workers := Stream.py_or (Some n) 1;
                   timeout := tmo; retry_count := 3; retry_delay := 1%Q |}
                ParallelStream._parallel_filter_wrapper predicate it))
      = match fst (py_list it) with
        | Raise e => Raise e
        | Ok data =>
            match filter_res predicate data with
            | Ok l => Ok l
            | Raise _ => Raise ParallelExecutionError
            end
        end).
  { intros it. apply chunked_filter_result; cbn [chunk_size num_workers];
      [rewrite Hcs | rewrite Hnw]; assumption. }
  rewrite collect_async_fresh by reflexivity.
  unfold Stream.collect, Stream.filter, ParallelStream.filter.
  cbn [ParallelStream.base ParallelStream.config BaseStream.transforms].
  rewrite !list_execute_snoc_lazy, list_execute_result.
  destruct (fst (apply_transforms (BaseStream.transforms s)
                   (iter_source (source w)))) as [it | e].
  - rewrite Hpar.
    assert (Hboth : forall data l,
               fst (py_list it) = Ok data ->
               filter_res predicate data = Ok l ->
               fst (py_list (py_filter predicate it)) = Ok l /\
               match fst (py_list it) with
               | Ok data0 =>
                   match filter_res predicate data0 with
                   | Ok l0 => Ok l0
                   | Raise _ => Raise ParallelExecutionError
                   end
               | Raise e => Raise e
               end = Ok l).
    { intros data l Hd Hm. split.
      - rewrite (py_list_py_filter_list predicate it data Hd).
        apply list_filter_ok. exact Hm.
      - rewrite Hd, Hm. reflexivity. }
    assert (Hback : forall l,
               match fst (py_list it) with
               | Ok data0 =>
                   match filter_res predicate data0 with
                   | Ok l0 => Ok l0
                   | Raise _ => Raise ParallelExecutionError
                   end
               | Raise e => Raise e
               end = Ok l ->
               fst (py_list (py_filter predicate it)) = Ok l).
    { intros l Hl. destruct (fst (py_list it)) as [data | e] eqn:Hd;
        [|discriminate].
      destruct (filter_res predicate data) as [l' | e] eqn:Hm; [|discriminate].
      injection Hl as <-. rewrite (py_list_py_filter_list predicate it data Hd).
      apply list_filter_ok. exact Hm. }
    split; [exact Hboth|]. split; [exact Hback|]. split.
    + intros l Hthrough. split; [|apply Hback].
      intros Hl.
      destruct (py_filter_drains predicate it l Hthrough Hl) as [data Hd].
      rewrite (py_list_py_filter_list predicate it data Hd) in Hl.
      rewrite (list_filter_through predicate data Hthrough) in Hl.
      apply (Hboth data l Hd Hl).
    + intros p data Hp Hd. apply (Hboth data (filter p data) Hd).
      rewrite (filter_res_ext predicate (fun x => Ok (p x)) data Hp).
      apply filter_res_total.
  - split; [intros data l Hd; discriminate|].
    split; [intros l Hl; discriminate|].
    split; [intros l _; split; discriminate|].
    intros p data _ Hd. discriminate.
Qed.

Lemma parallel_filter_matches_sequential_witness :
  1 <= 2 /\ 1 <= 3 /\
  exists ps,
    Stream.parallel (@Stream.new Z) (Some 3) (Some 2) None = Ok ps /\
    fst (Stream.collect (Stream.filter Stream.new (below 4)) sample_world)
    = Ok [1; 2; 3] /\
    fst (fst (BaseStream.collect_async
                (ParallelStream.base (ParallelStream.filter ps (below 4)))
                sample_world))
    = Ok [1; 2; 3].
Proof.
  split; [lia|]. split; [lia|].
  destruct (parallel_filter_matches_sequential Z Z Stream.new (below 4)
              sample_world 3 2 None) as [ps [Hps [Hsame _]]]; [lia | lia |].
  exists ps. split; [exact Hps|].
  apply (Hsame sample_rows [1; 2; 3]); reflexivity.
Defined.

Lemma map_res_length {A B} (g : A -> res B) (l : list A) (r : list B) :
  map_res g l = Ok r -> List.length r = List.length l.
Proof.
  revert r. induction l as [|x l IH]; intros r Hr; simpl in Hr.
  - injection Hr as <-. reflexivity.
  - destruct (g x) as [y | e]; [|discriminate]. simpl in Hr.
    destruct (map_res g l) as [ys | e]; [|discriminate].
    injection Hr as <-. simpl. rewrite (IH ys eq_refl). reflexivity.
Qed.

Lemma filter_res_length {A} (p : A -> res bool) (l r : list A) :
  filter_res p l = Ok r -> (List.length r <= List.length l)%nat.
Proof.
  revert r. induction l as [|x l IH]; intros r Hr; simpl in Hr.
  - injection Hr as <-. simpl. lia.
  - destruct (p x) as [b | e]; [|discriminate]. simpl in Hr.
    destruct (filter_res p l) as [ys | e]; [|discriminate].
    injection Hr as <-. specialize (IH ys eq_refl).
    destruct b; simpl; lia.
Qed.

(** The chunks handed out before a failure hold no more items than
    went in. *)
Lemma tally_bound {A B} (work : list A -> res (list B))
  (chunks : list (list A)) :
  (forall chunk r, work chunk = Ok r ->
                   (List.length r <= List.length chunk)%nat) ->
  (d_processed (tally (List.map work chunks))
   <= List.length (concat chunks))%nat.
Proof.
  intros Hwork. induction chunks as [|chunk chunks IH]; simpl; [lia|].
  rewrite length_app. destruct (work chunk) as [r | e] eqn:Hr; simpl.
  - specialize (Hwork chunk r Hr). lia.
  - lia.
Qed.

Lemma map_res_id_map {X Y} (work : X -> res Y) (l : list X) :
  map_res (fun r => r) (List.map work l) = map_res work l.
Proof. rewrite map_res_map. apply map_res_ext. reflexivity. Qed.

(** A parallel stage on a stream object, run by [collect_async]: the
    generic form of the four theorems below. *)
Lemma stage_collect_async {S A B X} (self : BaseStream.t S A)
  (config : ParallelConfig) (wrapper : X * list A -> res (list B))
  (func : X) (whole : list A -> res (list B)) (w w1 : World S)
  (data : list A) :
  (forall chunks,
      whole (concat chunks)
      = (rs <- map_res (fun chunk => wrapper (func, chunk)) chunks ;;
         Ok (concat rs))) ->
  (forall chunk r, wrapper (func, chunk) = Ok r ->
                   (List.length r <= List.length chunk)%nat) ->
  1 <= chunk_size config -> 1 <= num_workers config ->
  BaseStream.list_execute self w = (Ok data, w1) ->
  let stage :=
    {| BaseStream.transforms :=
         TSnoc (BaseStream.transforms self)
           (fun it => (Ok (ParallelStream.chunked config wrapper func it), d0));
       BaseStream._cached_results := None |} in
  match whole data with
  | Ok l =>
      BaseStream.collect_async stage w
      = (Ok l,
         {| BaseStream.transforms := BaseStream.transforms stage;
            BaseStream._cached_results := Some l |},
         {| source := source w1;
            stats :=
              {| processed_items := processed_items (stats w1) + len l;
                 failed_items := failed_items (stats w1);
                 execution_time := execution_time (stats w1);
                 error_count := error_count (stats w1) |} |})
  | Raise _ =>
      exists w',
        BaseStream.collect_async stage w
        = (Raise ParallelExecutionError, stage, w') /\
        source w' = source w1 /\
        error_count (stats w') = error_count (stats w1) + 1 /\
        processed_items (stats w1) <= processed_items (stats w')
        <= processed_items (stats w1) + len data /\
        failed_items (stats w') = failed_items (stats w1) /\
        execution_time (stats w') = execution_time (stats w1)
  end.
Proof.
  intros Hwhole Hbound Hc Hn Hrun stage.
  destruct (stage_list_execute self config wrapper func None w w1 data
              Hc Hn Hrun) as [chunks [Hchunks [Hcat Hstage]]].
  unfold BaseStream.collect_async. cbn [BaseStream._cached_results stage].
  unfold stage. rewrite Hstage. rewrite <- Hcat, Hwhole.
  destruct (map_res (fun chunk => wrapper (func, chunk)) chunks)
    as [rs | e] eqn:Hrs; simpl bind; cbv iota.
  - rewrite (tally_ok _ rs) by (rewrite map_res_id_map; exact Hrs).
    rewrite bump_processed. reflexivity.
  - eexists. split; [reflexivity|]. cbn [source stats bump error_count
      processed_items failed_items execution_time].
    split; [reflexivity|].
    rewrite (tally_failed _ e) by (rewrite map_res_id_map; exact Hrs).
    split; [reflexivity|].
    pose proof (tally_bound (fun chunk => wrapper (func, chunk)) chunks
                  Hbound) as Hb.
    unfold len. split; [lia|]. split; reflexivity.
Qed.

(** X2.  A parallel [map] whose function succeeds on every element of
    what the stream before it materialises to: [collect_async] returns
    the mapped list, caches it on the object, leaves the source as
    materialising the upstream leaves it, and adds exactly the number
    of returned elements to [processed_items]; the other counters stay
    as they are. *)
Theorem parallel_map_counts_items :
  forall (S T R : Type) (ps : ParallelStream.t S T) (func : T -> res R)
         (w w1 : World S) (data : list T) (l : list R),
    1 <= chunk_size (ParallelStream.config ps) ->
    1 <= num_workers (ParallelStream.config ps) ->
    BaseStream.list_execute (ParallelStream.base ps) w = (Ok data, w1) ->
    map_res func data = Ok l ->
    BaseStream.collect_async
      (ParallelStream.base (ParallelStream.map ps func)) w
    = (Ok l,
       {| BaseStream.transforms :=
            BaseStream.transforms
              (ParallelStream.base (ParallelStream.map ps func));
          BaseStream._cached_results := Some l |},
       {| source := source w1;
          stats :=
            {| processed_items := processed_items (stats w1) + len l;
               failed_items := failed_items (stats w1);
               execution_time := execution_time (stats w1);
               error_count := error_count (stats w1) |} |}).
Proof.
  intros S T R ps func w w1 data l Hc Hn Hrun Hmap.
  pose proof (stage_collect_async (ParallelStream.base ps)
                (ParallelStream.config ps)
                ParallelStream._parallel_map_wrapper func (map_res func)
                w w1 data) as Hstage.
  cbv zeta in Hstage. rewrite Hmap in Hstage. apply Hstage; try assumption.
  - intros chunks. apply map_res_concat.
  - intros chunk r Hr. simpl in Hr. rewrite (map_res_length _ _ _ Hr). lia.
Qed.

Lemma parallel_map_counts_items_witness :
  BaseStream.collect_async
    (ParallelStream.base
       (ParallelStream.map (ParallelStream.filter sample_parallel (below 4))
          square))
    sample_world
  = (Ok [1; 4; 9],
     {| BaseStream.transforms :=
          BaseStream.transforms
            (ParallelStream.base
               (ParallelStream.map
                  (ParallelStream.filter sample_parallel (below 4)) square));
        BaseStream._cached_results := Some [1; 4; 9] |},
     {| source := OneShot [] None;
        stats := {| processed_items := 3 + len [1; 4; 9]; failed_items := 0;
                    execution_time := 0%Q; error_count := 0 |} |}).
Proof.
  apply (parallel_map_counts_items Z Z Z
           (ParallelStream.filter sample_parallel (below 4)) square
           sample_world
           {| source := OneShot [] None;
              stats := {| processed_items := 3; failed_items := 0;
                          execution_time := 0%Q; error_count := 0 |} |}
           [1; 2; 3] [1; 4; 9]).
  - simpl. lia.
  - simpl. lia.
  - reflexivity.
  - reflexivity.
Defined.

(** X3.  A parallel [filter] whose predicate succeeds on every element:
    [collect_async] returns the kept elements, caches them, and adds the
    number of elements kept (not the number examined) to
    [processed_items]. *)
Theorem parallel_filter_counts_kept :
  forall (S T : Type) (ps : ParallelStream.t S T) (predicate : T -> res bool)
         (w w1 : World S) (data l : list T),
    1 <= chunk_size (ParallelStream.config ps) ->
    1 <= num_workers (ParallelStream.config ps) ->
    BaseStream.list_execute (ParallelStream.base ps) w = (Ok data, w1) ->
    filter_res predicate data = Ok l ->
    BaseStream.collect_async
      (ParallelStream.base (ParallelStream.filter ps predicate)) w
    = (Ok l,
       {| BaseStream.transforms :=
            BaseStream.transforms
              (ParallelStream.base (ParallelStream.filter ps predicate));
          BaseStream._cached_results := Some l |},
       {| source := source w1;
          stats :=
            {| processed_items := processed_items (stats w1) + len l;
               failed_items := failed_items (stats w1);
               execution_time := execution_time (stats w1);
               error_count := error_count (stats w1) |} |}).
Proof.
  intros S T ps predicate w w1 data l Hc Hn Hrun Hfilter.
  pose proof (stage_collect_async (ParallelStream.base ps)
                (ParallelStream.config ps)
                ParallelStream._parallel_filter_wrapper predicate
                (filter_res predicate) w w1 data) as Hstage.
  cbv zeta in Hstage. rewrite Hfilter in Hstage. apply Hstage; try assumption.
  - intros chunks. apply filter_res_concat.
  - intros chunk r Hr. simpl in Hr. exact (filter_res_length _ _ _ Hr).
Qed.

Lemma parallel_filter_counts_kept_witness :
  BaseStream.collect_async
    (ParallelStream.base (ParallelStream.filter sample_parallel (below 3)))
    sample_world
  = (Ok [1; 2],
     {| BaseStream.transforms :=
          BaseStream.transforms
            (ParallelStream.base
               (ParallelStream.filter sample_parallel (below 3)));
        BaseStream._cached_results := Some [1; 2] |},
     {| source := OneShot [] None;
        stats := {| processed_items := 0 + len [1; 2]; failed_items := 0;
                    execution_time := 0%Q; error_count := 0 |} |}).
Proof.
  apply (parallel_filter_counts_kept Z Z sample_parallel (below 3)
           sample_world
           {| source := OneShot [] None; stats := new_stats |}
           sample_rows [1; 2]).
  - simpl. lia.
  - simpl. lia.
  - reflexivity.
  - reflexivity.
Defined.




(** ** Failures above a parallel stage *)

(** X5.  When the stream before a parallel [map] or [filter] fails to
    materialise, the stage passes the failure on as it is, for any
    configuration: [collect_async] raises the same exception, not
    wrapped in [ParallelExecutionError], leaves the shared objects
    exactly as the failed materialisation leaves them (no error is
    counted), and caches nothing. *)
Theorem upstream_failure_passes_through :
  forall (S T R : Type) (ps : ParallelStream.t S T) (func : T -> res R)
         (predicate : T -> res bool) (w w1 : World S) (e : exn),
    BaseStream.list_execute (ParallelStream.base ps) w = (Raise e, w1) ->
    BaseStream.collect_async
      (ParallelStream.base (ParallelStream.map ps func)) w
    = (Raise e, ParallelStream.base (ParallelStream.map ps func), w1) /\
    BaseStream.collect_async
      (ParallelStream.base (ParallelStream.filter ps predicate)) w
    = (Raise e, ParallelStream.base (ParallelStream.filter ps predicate), w1).
Proof.
  intros S T R ps func predicate w w1 e.
  unfold BaseStream.collect_async, ParallelStream.map, ParallelStream.filter.
  cbn [ParallelStream.base BaseStream._cached_results].
  unfold BaseStream.list_execute, BaseStream._execute.
  cbn [BaseStream.transforms apply_transforms].
  destruct (apply_transforms (BaseStream.transforms (ParallelStream.base ps))
              (iter_source (source w))) as [[it | e'] d].
  - unfold ParallelStream.chunked.
    destruct (py_list it) as [[data | e2] d']; [discriminate|].
    intros Hrun. injection Hrun as -> <-. cbn [py_list].
    rewrite dplus_d0_r. split; reflexivity.
  - intros Hrun. injection Hrun as <- <-. split; reflexivity.
Qed.

Lemma upstream_failure_passes_through_witness :
  BaseStream.collect_async
    (ParallelStream.base (ParallelStream.map sample_parallel square))
    (snd (query (Raise (UserError "connection refused"))))
  = (Raise SQLExecutionError,
     ParallelStream.base (ParallelStream.map sample_parallel square),
     {| source := OneShot [] None; stats := new_stats |}).
Proof.
  apply (upstream_failure_passes_through Z Z Z sample_parallel square
           (below 0) (snd (query (Raise (UserError "connection refused"))))
           {| source := OneShot [] None; stats := new_stats |}
           SQLExecutionError).
  reflexivity.
Defined.

(** ** Caching by [collect_async] *)

Lemma collect_async_idempotent_witness :
  let first :=
    BaseStream.collect_async
      (ParallelStream.base (ParallelStream.map sample_parallel square))
      sample_world in
  BaseStream.collect_async (snd (fst first)) (snd first)
  = (Ok [1; 4; 9; 16; 25; 36], snd (fst first), snd first).
Proof.
  apply (collect_async_idempotent
           (ParallelStream.base (ParallelStream.map sample_parallel square))
           (snd (fst (BaseStream.collect_async
                        (ParallelStream.base
                           (ParallelStream.map sample_parallel square))
                        sample_world)))
           sample_world
           (snd (BaseStream.collect_async
                   (ParallelStream.base
                      (ParallelStream.map sample_parallel square))
                   sample_world))
           [1; 4; 9; 16; 25; 36]).
  reflexivity.
Defined.

(** ** Retrying, for a positive count *)

Lemma retry_operation_positive_witness :
  exists r calls slept,
    ParallelStream._retry_operation (flaky 2) tt 3 1%Q
    = Some (r, calls, slept) /\
    r <> Ok None /\
    (1 <= calls <= Z.to_nat 3)%nat /\
    slept = repeat 1%Q (calls - 1) /\
    (forall v, r = Ok (Some v) -> flaky 2 (calls - 1)%nat tt = Ok v) /\
    (forall e, r = Raise e ->
               calls = Z.to_nat 3 /\
               exists e0, flaky 2 (calls - 1)%nat tt = Raise e0 /\
                          e = out_of_coroutine e0) /\
    (forall k, (k < calls - 1)%nat -> exists e, flaky 2 k tt = Raise e).
Proof.
  apply (retry_operation_positive (flaky 2) tt 3 1%Q). lia.
Defined.

(** ** What the terminal calls do to the statistics *)

(** X8.  No terminal call writes [failed_items] or [execution_time]:
    after [collect], [collect_async] and [reduce_async], on any chain
    and whatever the outcome, both hold the values they had before. *)
Theorem terminal_calls_keep_failed_items_and_time :
  forall (S T : Type) (self : BaseStream.t S T) (ps : ParallelStream.t S T)
         (func : T -> T -> res T) (initial : option T) (w : World S),
    let after_collect := stats (snd (Stream.collect self w)) in
    let after_collect_async := stats (snd (BaseStream.collect_async self w)) in
    let after_reduce :=
      stats (snd (ParallelStream.reduce_async ps func initial w)) in
    failed_items after_collect = failed_items (stats w) /\
    execution_time after_collect = execution_time (stats w) /\
    failed_items after_collect_async = failed_items (stats w) /\
    execution_time after_collect_async = execution_time (stats w) /\
    failed_items after_reduce = failed_items (stats w) /\
    execution_time after_reduce = execution_time (stats w).
Proof.
  intros S T self ps func initial w.
  assert (Hrun : forall (X : Type) (s : BaseStream.t S X),
             failed_items (stats (snd (BaseStream.list_execute s w)))
             = failed_items (stats w) /\
             execution_time (stats (snd (BaseStream.list_execute s w)))
             = execution_time (stats w)).
  { intros X s. unfold BaseStream.list_execute.
    destruct (BaseStream._execute s w) as [[it | e] d].
    - destruct (py_list it) as [r d']. split; reflexivity.
    - split; reflexivity. }
  cbv zeta. split; [apply Hrun|]. split; [apply Hrun|].
  assert (Hasync :
            failed_items (stats (snd (BaseStream.collect_async self w)))
            = failed_items (stats w) /\
            execution_time (stats (snd (BaseStream.collect_async self w)))
            = execution_time (stats w)).
  { unfold BaseStream.collect_async.
    destruct (BaseStream._cached_results self); [split; reflexivity|].
    pose proof (Hrun T self) as H.
    destruct (BaseStream.list_execute self w) as [[l | e] w']; exact H. }
  split; [apply Hasync|]. split; [apply Hasync|].
  unfold ParallelStream.reduce_async.
  pose proof (Hrun T (ParallelStream.base ps)) as H.
  destruct (BaseStream.list_execute (ParallelStream.base ps) w)
    as [[data | e] w1]; [|exact H].
  destruct data as [|x rest]; [exact H|].
  destruct (_chunk_data (ParallelStream.config ps) (x :: rest));
    [|exact H].
  destruct (num_workers (ParallelStream.config ps) <=? 0); [exact H|].
  destruct (map_res _ _) as [chunk_results | e]; [|exact H].
  destruct (functools_reduce func chunk_results initial); exact H.
Qed.

(** ** Outcomes of [reduce_async] *)



(** X10.  With a negative chunk size there is no chunk to reduce, and
    [reduce_async] ignores its non-empty input: given a seed it returns
    the seed, after setting [processed_items] to the length of the
    input; without a seed it raises [ParallelExecutionError] and counts
    one error. *)
Theorem reduce_async_negative_chunk_size :
  forall (S T : Type) (ps : ParallelStream.t S T) (func : T -> T -> res T)
         (seed : T) (w w1 : World S) (x : T) (rest : list T),
    chunk_size (ParallelStream.config ps) < 0 ->
    1 <= num_workers (ParallelStream.config ps) ->
    BaseStream.list_execute (ParallelStream.base ps) w = (Ok (x :: rest), w1) ->
    ParallelStream.reduce_async ps func (Some seed) w
    = (Ok seed, ParallelStream.set_processed (len (x :: rest)) w1) /\
    fst (ParallelStream.reduce_async ps func None w)
    = Raise ParallelExecutionError /\
    error_count (stats (snd (ParallelStream.reduce_async ps func None w)))
    = error_count (stats w1) + 1.
Proof.
  intros S T ps func seed w w1 x rest Hc Hn Hdata.
  unfold ParallelStream.reduce_async. rewrite Hdata.
  rewrite chunk_data_negative by exact Hc.
  destruct (Z.leb_spec (num_workers (ParallelStream.config ps)) 0) as [|_];
    [lia|].
  simpl. split; [reflexivity|]. split; [reflexivity | lia].
Qed.

Lemma reduce_async_negative_chunk_size_witness :
  ParallelStream.reduce_async
    {| ParallelStream.base := Stream.new;
       ParallelStream.config := sample_config (-2) 1 |}
    add (Some 100) sample_world
  = (Ok 100,
     ParallelStream.set_processed (len (1 :: [2; 3; 4; 5; 6]))
       {| source := OneShot [] None; stats := new_stats |}) /\
  fst (ParallelStream.reduce_async
         {| ParallelStream.base := Stream.new;
            ParallelStream.config := sample_config (-2) 1 |}
         add None sample_world)
  = Raise ParallelExecutionError /\
  error_count
    (stats (snd (ParallelStream.reduce_async
                   {| ParallelStream.base := Stream.new;
                      ParallelStream.config := sample_config (-2) 1 |}
                   add None sample_world)))
  = 0 + 1.
Proof.
  apply (reduce_async_negative_chunk_size Z Z
           {| ParallelStream.base := Stream.new;
              ParallelStream.config := sample_config (-2) 1 |}
           add 100 sample_world
           {| source := OneShot [] None; stats := new_stats |}
           1 [2; 3; 4; 5; 6]).
  - simpl. lia.
  - simpl. lia.
  - reflexivity.
Defined.

(** ** How many chunks *)

Lemma range_up_length (stop step : Z) :
  1 <= step ->
  forall (fuel : nat) (i : Z),
    stop - i <= Z.of_nat fuel ->
    Z.of_nat (List.length (range_up fuel i stop step))
    = Z.max 0 ((stop - i + step - 1) / step).
Proof.
  intros Hstep. induction fuel as [|fuel IH]; intros i Hfuel.
  - simpl. assert (Hq : (stop - i + step - 1) / step <= 0).
    { apply Z.lt_succ_r. apply Z.div_lt_upper_bound; lia. }
    lia.
  - simpl. destruct (Z.ltb_spec i stop) as [Hlt | Hge].
    + cbn [List.length]. rewrite Nat2Z.inj_succ, IH by lia.
      replace (stop - i + step - 1) with (stop - (i + step) + step - 1 + 1 * step)
        by lia.
      rewrite Z.div_add by lia.
      assert (Hq : 0 <= (stop - (i + step) + step - 1) / step).
      { apply Z.div_pos; lia. }
      lia.
    + simpl. assert (Hq : (stop - i + step - 1) / step <= 0).
      { apply Z.lt_succ_r. apply Z.div_lt_upper_bound; lia. }
      lia.
Qed.

(** X11.  For a chunk size [c] of at least 1, [_chunk_data] cuts a
    list of [n] elements into ceil(n / c) chunks: as many units of work
    as a parallel stage submits to its pool. *)
Theorem chunk_data_count :
  forall (A : Type) (config : ParallelConfig) (data : list A)
         (chunks : list (list A)),
    1 <= chunk_size config ->
    _chunk_data config data = Ok chunks ->
    len chunks = (len data + chunk_size config - 1) / chunk_size config.
Proof.
  intros A config data chunks Hc. unfold _chunk_data, py_range.
  destruct (Z.eqb_spec (chunk_size config) 0) as [|_]; [lia|].
  destruct (Z.ltb_spec 0 (chunk_size config)) as [_|]; [|lia].
  simpl. intros Hchunks. injection Hchunks as <-.
  unfold len at 1. rewrite length_map.
  pose proof (len_nonneg data) as Hlen.
  rewrite (range_up_length (len data) (chunk_size config) Hc) by lia.
  rewrite Z.sub_0_r.
  assert (0 <= (len data + chunk_size config - 1) / chunk_size config).
  { apply Z.div_pos; lia. }
  lia.
Qed.

Lemma chunk_data_count_witness :
  len [[10; 20]; [30; 40]; [50]]
  = (len [10; 20; 30; 40; 50] + chunk_size (sample_config 2 1) - 1)
    / chunk_size (sample_config 2 1).
Proof.
  apply (chunk_data_count Z (sample_config 2 1) [10; 20; 30; 40; 50]
           [[10; 20]; [30; 40]; [50]]).
  - simpl. lia.
  - reflexivity.
Defined.

(** ** Failures in sequential stages *)







Lemma py_list_map_prefix {A B} (func : A -> res B) (pre post : list A)
  (x : A) (ys : list B) (e : exn) :
  map_res func pre = Ok ys -> func x = Raise e ->
  py_list (py_map func
             (iter_list (pulled 1) (pre ++ x :: post) (Stop d0)))
  = (match e with
     | StopIteration => Ok ys
     | _ => Raise e
     end, pulled (S (List.length pre))).
Proof.
  revert ys. induction pre as [|a pre IH]; intros ys Hpre Hx.
  - simpl in Hpre. injection Hpre as <-. simpl. rewrite Hx.
    destruct e; reflexivity.
  - simpl in Hpre. destruct (func a) as [b | e2] eqn:Ha; [|discriminate].
    simpl in Hpre.
    destruct (map_res func pre) as [ys' | e2] eqn:Hpre'; [|discriminate].
    simpl in Hpre. injection Hpre as <-.
    simpl. rewrite Ha. simpl. rewrite (IH ys' eq_refl Hx).
    destruct e; reflexivity.
Qed.

(** X14.  A sequential [map] over a generator pulls one row at a time.
    When the function first raises on a row, the rows before it have
    been mapped, that row has been taken, and the generator still holds
    exactly the rows behind it; the statistics are untouched.
    [collect()] raises what the function raised, except for
    [StopIteration], on which it returns the values of the rows before
    the one it was raised on. *)
Theorem sequential_map_failure_keeps_later_rows :
  forall (Row R : Type) (func : Row -> res R) (pre post : list Row)
         (x : Row)
         (ys : list R) (e : exn) (st : ExecutionStats),
    map_res func pre = Ok ys -> func x = Raise e ->
    Stream.collect (Stream.map Stream.new func)
      {| source := OneShot (pre ++ x :: post) None; stats := st |}
    = (match e with
       | StopIteration => Ok ys
       | _ => Raise e
       end, {| source := OneShot post None; stats := st |}).
Proof.
  intros Row R func pre post x ys e st Hpre Hx.
  unfold Stream.collect, BaseStream.list_execute, BaseStream._execute.
  cbn [Stream.map Stream.new BaseStream.transforms apply_transforms
       source iter_source].
  rewrite (py_list_map_prefix func pre post x ys e Hpre Hx).
  unfold commit. cbn [source stats]. f_equal. f_equal.
  - simpl d_pulled. unfold advance.
    destruct (Nat.leb_spec (S (List.length pre))
                (List.length (pre ++ x :: post))) as [_ | Hlt].
    + f_equal.
      replace (S (List.length pre)) with (List.length (pre ++ [x]))
        by (rewrite length_app; simpl; lia).
      replace (pre ++ x :: post) with ((pre ++ [x]) ++ post)
        by (rewrite <- app_assoc; reflexivity).
      rewrite skipn_app, skipn_all, Nat.sub_diag. reflexivity.
    + rewrite length_app in Hlt. simpl in Hlt. lia.
  - apply bump_quiet. split; reflexivity.
Qed.

Lemma sequential_map_failure_keeps_later_rows_witness :
  Stream.collect (Stream.map Stream.new (fails_at 3))
    {| source := OneShot ([1; 2] ++ 3 :: [4; 5; 6]) None; stats := new_stats |}
  = (Raise (UserError "boom"),
     {| source := OneShot [4; 5; 6] None; stats := new_stats |}) /\
  Stream.collect (Stream.map Stream.new (stop_at 3))
    {| source := OneShot ([1; 2] ++ 3 :: [4; 5; 6]) None; stats := new_stats |}
  = (Ok [1; 4],
     {| source := OneShot [4; 5; 6] None; stats := new_stats |}).
Proof.
  split.
  - apply (sequential_map_failure_keeps_later_rows Z Z (fails_at 3)
             [1; 2] [4; 5; 6] 3 [1; 2] (UserError "boom") new_stats);
      reflexivity.
  - apply (sequential_map_failure_keeps_later_rows Z Z (stop_at 3)
             [1; 2] [4; 5; 6] 3 [1; 4] StopIteration new_stats);
      reflexivity.
Defined.

(** ** A generator can be read once *)

Lemma py_list_after_effects {A} (d : Delta) (it : Iter A) :
  snd (py_list (after d it)) = dplus d (snd (py_list it)).
Proof.
  destruct it as [d' | d' e | d' a rest]; simpl; try reflexivity.
  destruct (py_list rest) as [r dr]. simpl. apply dplus_assoc.
Qed.

Lemma py_list_cons_effects {A} (d : Delta) (a : A) (rest : Iter A) :
  snd (py_list (Yield d a rest)) = dplus d (snd (py_list rest)).
Proof. simpl. destruct (py_list rest). reflexivity. Qed.

Lemma py_map_effects {A B} (func : A -> res B) (it : Iter A) (l : list B) :
  (forall x, func x <> Raise StopIteration) ->
  fst (py_list (py_map func it)) = Ok l ->
  snd (py_list (py_map func it)) = snd (py_list it).
Proof.
  intros Hthrough. revert l.
  induction it as [d | d e | d a rest IH]; intros l Hl; try reflexivity.
  simpl py_map in *. pose proof (Hthrough a) as Ha.
  destruct (func a) as [b | e].
  - rewrite py_list_cons in Hl. apply bind_ok in Hl.
    destruct Hl as [l' [Hl' _]].
    rewrite !py_list_cons_effects, (IH l' Hl'). reflexivity.
  - destruct e; try discriminate. congruence.
Qed.

Lemma py_filter_effects {A} (predicate : A -> res bool) (it : Iter A)
  (l : list A) :
  (forall x, predicate x <> Raise StopIteration) ->
  fst (py_list (py_filter predicate it)) = Ok l ->
  snd (py_list (py_filter predicate it)) = snd (py_list it).
Proof.
  intros Hthrough. revert l.
  induction it as [d | d e | d a rest IH]; intros l Hl; try reflexivity.
  simpl py_filter in *. pose proof (Hthrough a) as Ha.
  destruct (predicate a) as [[|] | e].
  - rewrite py_list_cons in Hl. apply bind_ok in Hl.
    destruct Hl as [l' [Hl' _]].
    rewrite !py_list_cons_effects, (IH l' Hl'). reflexivity.
  - rewrite py_list_after in Hl.
    rewrite py_list_after_effects, py_list_cons_effects, (IH l Hl).
    reflexivity.
  - destruct e; try discriminate. congruence.
Qed.

Lemma py_list_iter_list_effects {A} (d : Delta) (l : list A) :
  d_pulled (snd (py_list (iter_list d l (Stop d0))))
  = (List.length l * d_pulled d)%nat.
Proof.
  induction l as [|x l IH]; [reflexivity|].
  cbn [iter_list]. rewrite py_list_cons_effects. simpl. rewrite IH. lia.
Qed.

Lemma py_list_iter_list_all {A} (d : Delta) (l : list A) :
  fst (py_list (iter_list d l (Stop d0))) = Ok l.
Proof. rewrite py_list_iter_list. simpl. rewrite app_nil_r. reflexivity. Qed.

Lemma runs_through_sequential {S T} (s : Stream.t S T) :
  runs_through s -> Stream.sequential s.
Proof.
  induction 1 as [ | T R s func _ _ IH | T s predicate _ _ IH
                   | T K ord s key _ IH | T s w _ IH ].
  - apply Stream.seq_new.
  - apply Stream.seq_map. exact IH.
  - apply Stream.seq_filter. exact IH.
  - apply Stream.seq_group_by. exact IH.
  - apply Stream.seq_collected. exact IH.
Qed.

(** A sequential chain that materialises, and in which no function
    ends the iteration early, has pulled everything its source iterator
    hands out. *)
Lemma sequential_pulls_all {S T} (s : Stream.t S T) :
  runs_through s ->
  forall (src : Iter S) (n : nat),
    (forall l, fst (py_list src) = Ok l -> d_pulled (snd (py_list src)) = n) ->
    forall it l,
      fst (apply_transforms (BaseStream.transforms s) src) = Ok it ->
      fst (py_list it) = Ok l ->
      (d_pulled (snd (apply_transforms (BaseStream.transforms s) src))
       + d_pulled (snd (py_list it)))%nat = n.
Proof.
  induction 1 as [ | T R s func Hthrough _ IH | T s predicate Hthrough _ IH
                   | T K ord s key _ IH | T s w _ IH ];
    intros src n Hsrc it l Hit Hl.
  - simpl in *. injection Hit as <-. apply (Hsrc l Hl).
  - simpl in *. specialize (IH src n Hsrc).
    destruct (apply_transforms (BaseStream.transforms s) src)
      as [[it0 | e] d]; [|discriminate].
    simpl in *. injection Hit as <-.
    rewrite (py_map_effects func it0 l Hthrough Hl).
    destruct (py_map_drains func it0 l Hthrough Hl) as [data Hdata].
    specialize (IH it0 data eq_refl Hdata). lia.
  - simpl in *. specialize (IH src n Hsrc).
    destruct (apply_transforms (BaseStream.transforms s) src)
      as [[it0 | e] d]; [|discriminate].
    simpl in *. injection Hit as <-.
    rewrite (py_filter_effects predicate it0 l Hthrough Hl).
    destruct (py_filter_drains predicate it0 l Hthrough Hl) as [data Hdata].
    specialize (IH it0 data eq_refl Hdata). lia.
  - simpl in *. specialize (IH src n Hsrc).
    destruct (apply_transforms (BaseStream.transforms s) src)
      as [[it0 | e] d]; [|discriminate].
    unfold group_by_transform in *.
    destruct (py_list it0) as [[data | e] d'] eqn:Hit0; [|discriminate].
    simpl in Hit. destruct (decorate key data) as [decorated | e];
      [|discriminate].
    simpl in Hit. injection Hit as <-. simpl.
    rewrite py_list_iter_list_effects. simpl.
    specialize (IH it0 data eq_refl). rewrite Hit0 in IH.
    specialize (IH eq_refl). simpl in IH. lia.
  - rewrite collect_async_transforms in *.
    apply (IH src n Hsrc it l Hit Hl).
Qed.

(** Over an exhausted generator a sequential chain materialises to the
    empty list. *)
Lemma sequential_on_empty {S T} (s : Stream.t S T) :
  Stream.sequential s ->
  exists it,
    fst (apply_transforms (BaseStream.transforms s) (Stop d0)) = Ok it /\
    fst (py_list it) = Ok [].
Proof.
  induction 1 as [ | T R s func _ IH | T s predicate _ IH
                   | T K ord s key _ IH | T s w _ IH ].
  - exists (Stop d0). split; reflexivity.
  - destruct IH as [it [Hit Hl]]. simpl.
    destruct (apply_transforms (BaseStream.transforms s) (Stop d0))
      as [[it0 | e] d]; [|discriminate].
    simpl in *. injection Hit as ->. eexists. split; [reflexivity|].
    rewrite (py_list_py_map_list func it [] Hl). reflexivity.
  - destruct IH as [it [Hit Hl]]. simpl.
    destruct (apply_transforms (BaseStream.transforms s) (Stop d0))
      as [[it0 | e] d]; [|discriminate].
    simpl in *. injection Hit as ->. eexists. split; [reflexivity|].
    rewrite (py_list_py_filter_list predicate it [] Hl). reflexivity.
  - destruct IH as [it [Hit Hl]]. simpl.
    destruct (apply_transforms (BaseStream.transforms s) (Stop d0))
      as [[it0 | e] d]; [|discriminate].
    simpl in Hit. injection Hit as ->. unfold group_by_transform.
    destruct (py_list it) as [r d']. simpl in Hl. subst r.
    simpl. eexists. split; reflexivity.
  - rewrite collect_async_transforms. exact IH.
Qed.

Lemma advance_exhausted {S} (n : nat) :
  advance n (@OneShot S [] None) = OneShot [] None.
Proof.
  unfold advance. destruct (n <=? List.length (@nil S))%nat;
    [rewrite skipn_nil|]; reflexivity.
Qed.

(** Over a generator that is used up, [collect()] on a sequential
    stream returns the empty list and changes nothing. *)
Lemma collect_on_exhausted {Row T} (s : Stream.t Row T) (st : ExecutionStats) :
  Stream.sequential s ->
  Stream.collect s {| source := OneShot [] None; stats := st |}
  = (Ok [], {| source := OneShot [] None; stats := st |}).
Proof.
  intros Hs.
  unfold Stream.collect, BaseStream.list_execute, BaseStream._execute.
  cbn [source iter_source iter_list].
  pose proof (sequential_quiet s Hs (Stop d0) quiet_d0) as [Hqd Hqit].
  destruct (sequential_on_empty s Hs) as [it [Hit Hempty]].
  destruct (apply_transforms (BaseStream.transforms s) (Stop d0))
    as [[it0 | e] d]; [|discriminate].
  simpl in *. injection Hit as ->.
  specialize (Hqit it eq_refl). apply quiet_py_list in Hqit.
  destruct (py_list it) as [r d']. simpl in *. subst r.
  unfold commit. cbn [source stats]. rewrite advance_exhausted.
  rewrite bump_quiet by (apply quiet_dplus; assumption). reflexivity.
Qed.

(** X15.  A generator is read once, by whichever pipeline value gets
    there first.  When [collect()] on a sequential stream over a
    generator returns a list, and no [map] function or [filter]
    predicate of the stream raises [StopIteration] (which would end the
    reading early), the generator is exhausted and the statistics are
    untouched; from then on [collect()] on any sequential stream of the
    chain, this one included, returns the empty list. *)
Theorem generator_is_read_once :
  forall (Row T T' : Type) (s : Stream.t Row T) (s' : Stream.t Row T')
         (rest : list Row) (st : ExecutionStats) (l : list T),
    runs_through s -> Stream.sequential s' ->
    fst (Stream.collect s {| source := OneShot rest None; stats := st |})
    = Ok l ->
    snd (Stream.collect s {| source := OneShot rest None; stats := st |})
    = {| source := OneShot [] None; stats := st |} /\
    Stream.collect s' {| source := OneShot [] None; stats := st |}
    = (Ok [], {| source := OneShot [] None; stats := st |}).
Proof.
  intros Row T T' s s' rest st l Hthrough Hs' Hl.
  pose proof (runs_through_sequential s Hthrough) as Hs. split.
  - unfold Stream.collect, BaseStream.list_execute, BaseStream._execute in *.
    cbn [source iter_source] in *.
    pose proof (sequential_quiet s Hs
                  (iter_list (pulled 1) rest (Stop d0))
                  (quiet_source (OneShot rest None))) as [Hqd Hqit].
    pose proof (sequential_pulls_all s Hthrough
                  (iter_list (pulled 1) rest (Stop d0)) (List.length rest))
      as Hpull.
    destruct (apply_transforms (BaseStream.transforms s)
                (iter_list (pulled 1) rest (Stop d0))) as [[it | e] d];
      [|discriminate].
    simpl in Hqd, Hqit, Hpull.
    specialize (Hqit it eq_refl). apply quiet_py_list in Hqit.
    assert (Hn : forall l0,
               fst (py_list (iter_list (pulled 1) rest (Stop d0))) = Ok l0 ->
               d_pulled (snd (py_list (iter_list (pulled 1) rest (Stop d0))))
               = List.length rest).
    { intros l0 _. rewrite py_list_iter_list_effects. simpl. lia. }
    specialize (Hpull Hn it). clear Hn.
    destruct (py_list it) as [r d']. simpl in *. subst r.
    specialize (Hpull l eq_refl eq_refl).
    unfold commit. cbn [source stats]. f_equal.
    + unfold advance. simpl d_pulled. rewrite Hpull, Nat.leb_refl, skipn_all.
      reflexivity.
    + apply bump_quiet. apply quiet_dplus; assumption.
  - apply collect_on_exhausted. exact Hs'.
Qed.

Lemma generator_is_read_once_witness :
  snd (Stream.collect (Stream.filter Stream.new (below 4))
         {| source := OneShot sample_rows None; stats := new_stats |})
  = {| source := OneShot [] None; stats := new_stats |} /\
  Stream.collect (Stream.map Stream.new square)
    {| source := OneShot [] None; stats := new_stats |}
  = (Ok [], {| source := OneShot [] None; stats := new_stats |}).
Proof.
  apply (generator_is_read_once Z Z Z (Stream.filter Stream.new (below 4))
           (Stream.map Stream.new square) sample_rows new_stats [1; 2; 3]).
  - apply through_filter; [discriminate | apply through_new].
  - apply Stream.seq_map. apply Stream.seq_new.
  - reflexivity.
Defined.

(** Why the functions must not raise [StopIteration]: a [map] that
    stops at row 3 returns a list although the generator still holds
    rows 4 to 6, and the next [collect()] reads those. *)
Example stop_iteration_leaves_rows_behind :
  let s := Stream.map Stream.new (stop_at 3) in
  let first :=
    Stream.collect s
      {| source := OneShot sample_rows None; stats := new_stats |} in
  first = (Ok [1; 4],
           {| source := OneShot [4; 5; 6] None; stats := new_stats |}) /\
  Stream.collect s (snd first)
  = (Ok [16; 25; 36], {| source := OneShot [] None; stats := new_stats |}).
Proof. split; reflexivity. Qed.

(** X16.  Over a list, which every run walks from the start,
    [collect()] on a sequential stream changes nothing at all: the
    shared objects are as before, so a second call returns what the
    first returned. *)
Theorem collect_over_a_list_is_repeatable :
  forall (Row T : Type) (s : Stream.t Row T) (items : list Row)
         (st : ExecutionStats),
    Stream.sequential s ->
    let w := {| source := Reiterable items; stats := st |} in
    snd (Stream.collect s w) = w /\
    Stream.collect s (snd (Stream.collect s w)) = Stream.collect s w.
Proof.
  intros Row T s items st Hs w.
  assert (Hsame : snd (Stream.collect s w) = w).
  { unfold Stream.collect, BaseStream.list_execute, BaseStream._execute.
    pose proof (sequential_quiet s Hs (iter_source (source w))
                  (quiet_source (source w))) as [Hqd Hqit].
    destruct (apply_transforms (BaseStream.transforms s)
                (iter_source (source w))) as [[it | e] d]; simpl in *.
    - specialize (Hqit it eq_refl). apply quiet_py_list in Hqit.
      destruct (py_list it) as [r d']. simpl in *. unfold commit, w.
      cbn [source stats advance].
      rewrite bump_quiet by (apply quiet_dplus; assumption). reflexivity.
    - unfold commit, w. cbn [source stats advance].
      rewrite bump_quiet by assumption. reflexivity. }
  split; [exact Hsame | rewrite Hsame; reflexivity].
Qed.

Lemma collect_over_a_list_is_repeatable_witness :
  snd (Stream.collect (Stream.map Stream.new square)
         {| source := Reiterable sample_rows; stats := new_stats |})
  = {| source := Reiterable sample_rows; stats := new_stats |} /\
  Stream.collect (Stream.map Stream.new square)
    (snd (Stream.collect (Stream.map Stream.new square)
            {| source := Reiterable sample_rows; stats := new_stats |}))
  = Stream.collect (Stream.map Stream.new square)
      {| source := Reiterable sample_rows; stats := new_stats |}.
Proof.
  apply (collect_over_a_list_is_repeatable Z Z (Stream.map Stream.new square)
           sample_rows new_stats).
  apply Stream.seq_map. apply Stream.seq_new.
Defined.

(** ** The order of the groups *)

Section GroupOrder.
Context {A K : Type} {ord : PyOrd K} {total : TotalOrd K}.

Lemma py_lt_of_le_ne (a b : K) :
  py_lt b a = false -> a <> b -> py_lt a b = true.
Proof.
  intros Hle Hne. destruct (py_lt a b) eqn:Hlt; [reflexivity|].
  exfalso. apply Hne. apply py_lt_total; assumption.
Qed.

Lemma py_lt_le_trans (a b c : K) :
  py_lt a b = true -> py_lt c b = false -> py_lt a c = true.
Proof.
  intros Hab Hbc. destruct (py_lt a c) eqn:Hac; [reflexivity|].
  rewrite (py_le_trans b c a Hbc Hac) in Hab. discriminate.
Qed.

Lemma groupby_from_ascending (l : list (K * A)) :
  forall tgtkey group,
    StronglySorted key_le l ->
    Forall (fun y => py_lt (fst y) tgtkey = false) l ->
    StronglySorted (fun a b => py_lt a b = true)
      (List.map fst (groupby_from tgtkey group l)).
Proof.
  induction l as [|[currkey x] l IH]; intros tgtkey group Hsorted Hlow.
  - simpl. constructor; constructor.
  - pose proof Hsorted as Hsorted0.
    apply StronglySorted_inv in Hsorted. destruct Hsorted as [Hsorted Hall].
    pose proof Hlow as Hlow0.
    apply Forall_cons_iff in Hlow. destruct Hlow as [Hcurr Hlow].
    simpl in Hcurr. cbn [groupby_from].
    destruct (py_eq currkey tgtkey) eqn:Heq.
    + apply IH; assumption.
    + apply py_eq_false in Heq.
      assert (Hlow' : Forall (fun y => py_lt (fst y) currkey = false) l).
      { rewrite Forall_forall in *. intros y Hy. apply (Hall y Hy). }
      cbn [List.map fst]. constructor; [apply IH; assumption|].
      destruct (groupby_from_sorted l currkey [x] Hsorted Hlow')
        as [_ [Hkeys _]].
      rewrite Forall_forall. intros k Hk. apply Hkeys in Hk.
      assert (Hstep : py_lt tgtkey currkey = true).
      { apply py_lt_of_le_ne; [exact Hcurr | congruence]. }
      destruct Hk as [-> | Hk]; [exact Hstep|].
      apply in_map_iff in Hk. destruct Hk as [y [Hy Hin]].
      apply py_lt_le_trans with (b := currkey); [exact Hstep|].
      rewrite Forall_forall in Hlow'. rewrite <- Hy. apply Hlow'. exact Hin.
Qed.

Lemma groupby_ascending (l : list (K * A)) :
  StronglySorted key_le l ->
  StronglySorted (fun a b => py_lt a b = true) (List.map fst (groupby l)).
Proof.
  intros Hsorted. destruct l as [|[k0 x] l]; [constructor|].
  apply StronglySorted_inv in Hsorted. destruct Hsorted as [Hsorted Hall].
  cbn [groupby]. apply groupby_from_ascending; assumption.
Qed.
End GroupOrder.

(** X17.  [group_by] followed by [collect()] returns the groups in
    ascending key order, whatever the order of the input: every key in
    the returned list is strictly below every key behind it. *)
Theorem group_by_keys_ascend :
  forall (S T K : Type) (ord : PyOrd K) (total : TotalOrd K)
         (s : Stream.t S T) (key : T -> K) (w : World S) (data : list T),
    fst (Stream.collect s w) = Ok data ->
    exists out,
      fst (Stream.collect (Stream.group_by s (fun x => Ok (key x))) w)
      = Ok out /\
      StronglySorted (fun a b => py_lt a b = true) (List.map fst out).
Proof.
  intros S T K ord total s key w data Hdata.
  eexists. split; [apply group_by_collect; exact Hdata|].
  apply groupby_ascending.
  apply (sort_decorated_spec (List.map (fun x => (key x, x)) data)).
Qed.

Lemma group_by_keys_ascend_witness :
  exists out,
    fst (Stream.collect
           (Stream.group_by Stream.new (fun x => Ok ((7 - x) mod 3)))
           sample_world)
    = Ok out /\
    StronglySorted (fun a b => py_lt a b = true) (List.map fst out).
Proof.
  apply (group_by_keys_ascend Z Z Z PyOrd_Z TotalOrd_Z Stream.new
           (fun x => (7 - x) mod 3) sample_world sample_rows).
  reflexivity.
Defined.

(** ** Rows of a query *)

Lemma row_dict_keys (row : list (string * cell)) :
  List.map fst (row_dict row) = List.map fst row.
Proof.
  unfold row_dict. rewrite map_map. apply map_ext.
  intros [k v]. simpl. destruct (needs_str v); reflexivity.
Qed.

Lemma row_dict_clean (row : list (string * cell)) :
  Forall (fun item => needs_str (snd item) = false) (row_dict row).
Proof.
  unfold row_dict. rewrite Forall_map. rewrite Forall_forall.
  intros [k v] _. simpl. destruct v; reflexivity.
Qed.

Lemma row_dict_fixed (row : list (string * cell)) :
  Forall (fun item => needs_str (snd item) = false) row ->
  row_dict row = row.
Proof.
  intros Hclean. unfold row_dict. rewrite <- (map_id row) at 2.
  apply map_ext_in. intros item Hin. rewrite Forall_forall in Hclean.
  rewrite (Hclean item Hin). reflexivity.
Qed.

Lemma collect_new_over_generator {Row} (l : list Row) (st : ExecutionStats) :
  Stream.collect Stream.new {| source := OneShot l None; stats := st |}
  = (Ok l, {| source := OneShot [] None; stats := st |}).
Proof.
  unfold Stream.collect, BaseStream.list_execute, BaseStream._execute.
  cbn [Stream.new BaseStream.transforms apply_transforms source iter_source].
  rewrite (py_list_pair (iter_list (pulled 1) l (Stop d0))).
  rewrite py_list_iter_list_all. f_equal. unfold commit. cbn [source stats].
  f_equal.
  - unfold advance. simpl d_pulled. rewrite py_list_iter_list_effects.
    simpl d_pulled. rewrite Nat.mul_1_r, Nat.leb_refl, skipn_all. reflexivity.
  - apply bump_quiet. apply quiet_dplus; [apply quiet_d0|].
    apply quiet_py_list. apply (quiet_source (OneShot l None)).
Qed.

(** X18.  When the database answers, [collect()] on the stream that
    [query] returns hands out one dictionary per row, in row order,
    with the columns of the row in their order; every [datetime],
    [date] and [Decimal] value has been replaced by its [str], every
    other value is the one the database gave, and a row without such
    values comes out as it went in.  Position by position: column [j]
    of row [i] keeps its name, and its value is the [str] of the
    database's value if that is a [datetime], a [date] or a [Decimal],
    and the database's value otherwise. *)
Theorem query_rows_are_plain :
  forall (rows : list (list (string * cell))),
    exists out,
      fst (Stream.collect (fst (query_rows (Ok rows)))
             (snd (query_rows (Ok rows)))) = Ok out /\
      List.length out = List.length rows /\
      List.map (List.map fst) out = List.map (List.map fst) rows /\
      Forall (Forall (fun item => needs_str (snd item) = false)) out /\
      (forall i row item,
          nth_error rows i = Some row -> In item row ->
          needs_str (snd item) = false ->
          exists row', nth_error out i = Some row' /\ In item row') /\
      (Forall (Forall (fun item => needs_str (snd item) = false)) rows ->
       out = rows) /\
      (forall i j row key value,
          nth_error rows i = Some row ->
          nth_error row j = Some (key, value) ->
          exists row',
            nth_error out i = Some row' /\
            nth_error row' j
            = Some (key,
                    match value with
                    | CDatetime text | CDate text | CDecimal text => CStr text
                    | other => other
                    end)).
Proof.
  intros rows. exists (List.map row_dict rows).
  split; [unfold query_rows, result_generator; cbn [fst snd];
          rewrite collect_new_over_generator; reflexivity|].
  split; [apply length_map|].
  split; [rewrite map_map; apply map_ext; intros row; apply row_dict_keys|].
  split; [rewrite Forall_map, Forall_forall; intros row _;
          apply row_dict_clean|].
  split; [|split].
  - intros i row item Hrow Hin Hplain. exists (row_dict row).
    split; [rewrite nth_error_map, Hrow; reflexivity|].
    unfold row_dict. apply in_map_iff. exists item.
    rewrite Hplain. split; [reflexivity | exact Hin].
  - intros Hclean. rewrite <- (map_id rows) at 2. apply map_ext_in.
    intros row Hin. apply row_dict_fixed. rewrite Forall_forall in Hclean.
    apply Hclean. exact Hin.
  - intros i j row key value Hrow Hitem. exists (row_dict row).
    split; [rewrite nth_error_map, Hrow; reflexivity|].
    unfold row_dict. rewrite nth_error_map, Hitem.
    destruct value; reflexivity.
Qed.

(** ** A query that fails *)

Lemma sequential_lazy_or_grouping {S T} (s : Stream.t S T) :
  Stream.sequential s -> lazy_chain s \/ grouping_chain s.
Proof.
  induction 1 as [ | T R s func _ IH | T s predicate _ IH
                   | T K ord s key _ IH | T s w _ IH ].
  - left. apply lazy_new.
  - destruct IH; [left; apply lazy_map | right; apply grouping_map];
      assumption.
  - destruct IH; [left; apply lazy_filter | right; apply grouping_filter];
      assumption.
  - right. destruct IH; [apply grouping_first | apply grouping_again];
      assumption.
  - destruct IH; [left; apply lazy_collected | right; apply grouping_collected];
      assumption.
Qed.

(** Lazy stages only wrap an iterator that fails at its first call. *)
Lemma lazy_chain_over_failure {S T} (s : Stream.t S T) (e : exn) :
  lazy_chain s ->
  apply_transforms (BaseStream.transforms s) (Throw (pulled 1) e)
  = (Ok (Throw (pulled 1) e), d0).
Proof.
  induction 1 as [ | T R s func _ IH | T s predicate _ IH | T s w _ IH ].
  - reflexivity.
  - simpl. rewrite IH. reflexivity.
  - simpl. rewrite IH. reflexivity.
  - rewrite collect_async_transforms. exact IH.
Qed.

(** [sorted] makes that call while the transforms are chained. *)
Lemma grouping_chain_over_failure {S T} (s : Stream.t S T) (e : exn) :
  grouping_chain s ->
  apply_transforms (BaseStream.transforms s) (Throw (pulled 1) e)
  = (Raise e, pulled 1).
Proof.
  induction 1 as [ T K ord s key Hlazy | T K ord s key _ IH
                   | T R s func _ IH | T s predicate _ IH | T s w _ IH ].
  - simpl. rewrite (lazy_chain_over_failure s e Hlazy). reflexivity.
  - simpl. rewrite IH. reflexivity.
  - simpl. rewrite IH. reflexivity.
  - simpl. rewrite IH. reflexivity.
  - rewrite collect_async_transforms. exact IH.
Qed.

(** [collect()] over a generator that raises [e] at its first call:
    the exception comes out as it is through lazy stages and as
    [StreamError] when a [group_by] stage reads the generator; either
    way the generator is finished and the statistics are untouched. *)
Lemma collect_over_failure {S T} (s : Stream.t S T) (e : exn)
  (st : ExecutionStats) :
  e <> StopIteration ->
  (lazy_chain s ->
   Stream.collect s {| source := OneShot [] (Some e); stats := st |}
   = (Raise e, {| source := OneShot [] None; stats := st |})) /\
  (grouping_chain s ->
   Stream.collect s {| source := OneShot [] (Some e); stats := st |}
   = (Raise StreamError, {| source := OneShot [] None; stats := st |})).
Proof.
  intros Hne.
  assert (Hsrc : iter_source (@OneShot S [] (Some e)) = Throw (pulled 1) e).
  { destruct e; try reflexivity. congruence. }
  split; intros Hs;
    unfold Stream.collect, BaseStream.list_execute, BaseStream._execute;
    cbn [source]; rewrite Hsrc.
  - rewrite (lazy_chain_over_failure s e Hs). simpl py_list. cbv iota.
    unfold commit. cbn [source stats]. f_equal. f_equal.
    apply bump_quiet. split; reflexivity.
  - rewrite (grouping_chain_over_failure s e Hs).
    unfold commit. cbn [source stats]. f_equal. f_equal.
    apply bump_quiet. split; reflexivity.
Qed.

(** X19.  A query that fails does so at the first terminal call, not
    when [query] is called, which returns a stream like any other.
    [collect()] on any sequential chain over that stream then raises:
    [SQLExecutionError] when the chain has only [map] and [filter]
    stages, [StreamError] when it has a [group_by] stage.  The
    generator is finished by the failure: the next [collect()] does not
    fail again, it returns the empty list. *)
Theorem failed_query_then_empty :
  forall (T : Type) (s : Stream.t (list (string * cell)) T) (e : exn),
    Stream.sequential s ->
    let w := snd (query_rows (Raise e)) in
    let first := Stream.collect s w in
    fst (query_rows (Raise e)) = Stream.new /\
    (lazy_chain s \/ grouping_chain s) /\
    (lazy_chain s -> fst first = Raise SQLExecutionError) /\
    (grouping_chain s -> fst first = Raise StreamError) /\
    snd first = {| source := OneShot [] None; stats := new_stats |} /\
    Stream.collect s (snd first) = (Ok [], snd first).
Proof.
  intros T s e Hs w first.
  destruct (collect_over_failure s SQLExecutionError new_stats)
    as [Hlazy Hgrouping]; [discriminate|].
  assert (Hafter :
            snd first = {| source := OneShot [] None; stats := new_stats |}).
  { unfold first, w, query_rows, result_generator. cbn [snd].
    destruct (sequential_lazy_or_grouping s Hs) as [Hl | Hg].
    - rewrite (Hlazy Hl). reflexivity.
    - rewrite (Hgrouping Hg). reflexivity. }
  split; [reflexivity|].
  split; [apply sequential_lazy_or_grouping; exact Hs|].
  split; [intros Hl; unfold first, w, query_rows, result_generator;
          cbn [snd]; rewrite (Hlazy Hl); reflexivity|].
  split; [intros Hg; unfold first, w, query_rows, result_generator;
          cbn [snd]; rewrite (Hgrouping Hg); reflexivity|].
  split; [exact Hafter|].
  rewrite Hafter. apply collect_on_exhausted. exact Hs.
Qed.

Lemma failed_query_then_empty_witness :
  let w := snd (query_rows (Raise (UserError "connection refused"))) in
  let width := fun row : list (string * cell) => Ok (len row) in
  let after := {| source := OneShot [] None; stats := new_stats |} in
  (fst (Stream.collect (Stream.map Stream.new width) w)
   = Raise SQLExecutionError /\
   snd (Stream.collect (Stream.map Stream.new width) w) = after /\
   Stream.collect (Stream.map Stream.new width) after = (Ok [], after)) /\
  (fst (Stream.collect (Stream.group_by Stream.new width) w)
   = Raise StreamError /\
   snd (Stream.collect (Stream.group_by Stream.new width) w) = after /\
   Stream.collect (Stream.group_by Stream.new width) after = (Ok [], after)).
Proof.
  intros w width after. split.
  - destruct (failed_query_then_empty Z (Stream.map Stream.new width)
                (UserError "connection refused"))
      as [_ [_ [Hlazy [_ [Hafter Hnext]]]]].
    + apply Stream.seq_map. apply Stream.seq_new.
    + split; [apply Hlazy; apply lazy_map; apply lazy_new|].
      split; [exact Hafter|]. rewrite Hafter in Hnext. exact Hnext.
  - destruct (failed_query_then_empty (Z * list (list (string * cell)))
                (Stream.group_by Stream.new width)
                (UserError "connection refused"))
      as [_ [_ [_ [Hgrouping [Hafter Hnext]]]]].
    + apply Stream.seq_group_by. apply Stream.seq_new.
    + split; [apply Hgrouping; apply grouping_first; apply lazy_new|].
      split; [exact Hafter|]. rewrite Hafter in Hnext. exact Hnext.
Defined.

Lemma query_rows_are_plain_witness :
  exists out,
    fst (Stream.collect (fst (query_rows (Ok sample_answer)))
           (snd (query_rows (Ok sample_answer)))) = Ok out /\
    List.length out = List.length sample_answer /\
    List.map (List.map fst) out = List.map (List.map fst) sample_answer /\
    Forall (Forall (fun item => needs_str (snd item) = false)) out /\
    (forall i row item,
        nth_error sample_answer i = Some row -> In item row ->
        needs_str (snd item) = false ->
        exists row', nth_error out i = Some row' /\ In item row') /\
    (Forall (Forall (fun item => needs_str (snd item) = false))
       sample_answer ->
     out = sample_answer) /\
    (forall i j row key value,
        nth_error sample_answer i = Some row ->
        nth_error row j = Some (key, value) ->
        exists row',
          nth_error out i = Some row' /\
          nth_error row' j
          = Some (key,
                  match value with
                  | CDatetime text | CDate text | CDecimal text => CStr text
                  | other => other
                  end)).
Proof. exact (query_rows_are_plain sample_answer). Defined.

(** What comes out for the sample answer. *)
Example run_query_rows :
  fst (Stream.collect (fst (query_rows (Ok sample_answer)))
         (snd (query_rows (Ok sample_answer))))
  = Ok [[("id"%string, CInt 1);
         ("seen"%string, CStr "2024-11-06 10:00:00");
         ("price"%string, CStr "9.90"); ("link"%string, CNone)]].
Proof. reflexivity. Qed.

(** ** The cache of [collect_async], on success and on failure *)

(** X6.  On an object that holds no result yet, [collect_async] keeps
    what it returns and nothing else.  After a list has been returned,
    every later call on the object returns that list again and leaves
    the shared objects alone, whatever state they are in; after a
    failure the object is unchanged, so the next call runs the chain
    again. *)
Theorem collect_async_caches_success_only :
  forall (S T : Type) (self : BaseStream.t S T) (w : World S),
    BaseStream._cached_results self = None ->
    let self' := snd (fst (BaseStream.collect_async self w)) in
    match fst (fst (BaseStream.collect_async self w)) with
    | Ok l =>
        BaseStream._cached_results self' = Some l /\
        BaseStream.transforms self' = BaseStream.transforms self /\
        forall w'', BaseStream.collect_async self' w'' = (Ok l, self', w'')
    | Raise _ => self' = self
    end.
Proof.
  intros S T self w Hnone. unfold BaseStream.collect_async. rewrite Hnone.
  destruct (BaseStream.list_execute self w) as [[l | e] w']; cbn [fst snd].
  - split; [reflexivity|]. split; [reflexivity|]. intros w''. reflexivity.
  - reflexivity.
Qed.

Lemma collect_async_caches_success_only_witness :
  let self := ParallelStream.base (ParallelStream.map sample_parallel square) in
  let self' := snd (fst (BaseStream.collect_async self sample_world)) in
  BaseStream._cached_results self' = Some [1; 4; 9; 16; 25; 36] /\
  BaseStream.transforms self' = BaseStream.transforms self /\
  forall w'',
    BaseStream.collect_async self' w''
    = (Ok [1; 4; 9; 16; 25; 36], self', w'').
Proof.
  exact (collect_async_caches_success_only Z Z
           (ParallelStream.base (ParallelStream.map sample_parallel square))
           sample_world eq_refl).
Defined.

(** ** The retry helper, by what the operation does *)


